(** * binder: request-to-struct binding (uRadical/binder, package [binder])

    A shallow embedding of [Bind], [getFieldInfo], [BindStruct],
    [parseContentType], [parseBody], [setField] and the coercion helpers,
    followed by the properties of the specification that concern them.

    Modelling conventions.
    - Go strings are byte strings: [string].  Byte slices are [list byte].
    - [interface{}] raw values are the inductive [value]; destination values
      seen through [reflect.Value] are a static type [typ] and a content
      [gval].  Static types are finite trees, so recursive Go types are
      outside the model.
    - [map[string]interface{}] is [gmap string value]; a nil map and an empty
      map behave alike in every function modelled here.
    - A mutation through [reflect.Value] returns the new content; a function
      that may fail after mutating returns the content together with
      [option error].
    - The Go standard library and the methods supplied by callers are the
      fields of the classes [GoStd] and [UserMethods].
    - Go panics are not modelled: struct fields are exported and settable,
      the target of [Bind] is a pointer to a struct. *)

Set Warnings "-register-all".
From Stdlib Require Import ZArith String Ascii List Bool Floats Lia.
From Stdlib.Strings Require Import Byte.
From Stdlib Require Import DecimalString.
From stdpp Require Import gmap strings list fin_maps.

Local Open Scope string_scope.
Local Open Scope Z_scope.

(** ** Package [strings] (the byte-level functions) *)

Module strings.

(** [strings.Contains(s, substr)]. *)
Fixpoint Contains (s substr : string) : bool :=
  if String.prefix substr s then true
  else match s with
       | EmptyString => false
       | String _ s' => Contains s' substr
       end.

(** [strings.Index(s, substr)]: byte index of the first instance, or -1. *)
Fixpoint Index (s substr : string) : Z :=
  if String.prefix substr s then 0
  else match s with
       | EmptyString => -1
       | String _ s' => let i := Index s' substr in
                        if i <? 0 then -1 else i + 1
       end.

(** [strings.Split(s, sep)] for a one-byte separator [sep]. *)
Fixpoint Split (s : string) (sep : ascii) : list string :=
  match s with
  | EmptyString => [EmptyString]
  | String c s' =>
      if Ascii.eqb c sep then EmptyString :: Split s' sep
      else match Split s' sep with
           | [] => [String c EmptyString]
           | p :: ps => String c p :: ps
           end
  end.

End strings.

(** The slice expression [s[:i]]. *)
Definition slice_to (s : string) (i : Z) : string :=
  String.substring 0 (Z.to_nat i) s.

(** ** Errors *)

(** [errors.New(msg)] and [fmt.Errorf(prefix + "%w", err)]. *)
Inductive error : Type :=
| errorString (msg : string)
| wrapError (prefix : string) (err : error).

Fixpoint Error (e : error) : string :=
  match e with
  | errorString msg => msg
  | wrapError prefix err => prefix ++ Error err
  end.

Definition Unwrap (e : error) : option error :=
  match e with
  | errorString _ => None
  | wrapError _ err => Some err
  end.

(** ** Tag constants *)

Definition path : string := "path".
Definition query : string := "query".
Definition body : string := "body".
Definition jjson : string := "json".
Definition cookie : string := "cookie".

(** ** [reflect.Kind] *)

Inductive IntKind : Set := Int | Int8 | Int16 | Int32 | Int64.
Inductive UintKind : Set := Uint | Uint8 | Uint16 | Uint32 | Uint64 | Uintptr.
Inductive FloatKind : Set := Float32 | Float64.

Inductive Kind : Set :=
| Invalid | Bool
| KInt (k : IntKind) | KUint (k : UintKind) | KFloat (k : FloatKind)
| Complex64 | Complex128
| Array | Chan | Func | Interface | Map | Pointer | Slice | String_ | Struct
| UnsafePointer.

(** [Kind.String()]. *)
Definition Kind_String (k : Kind) : string :=
  match k with
  | Invalid => "invalid" | Bool => "bool"
  | KInt Int => "int" | KInt Int8 => "int8" | KInt Int16 => "int16"
  | KInt Int32 => "int32" | KInt Int64 => "int64"
  | KUint Uint => "uint" | KUint Uint8 => "uint8" | KUint Uint16 => "uint16"
  | KUint Uint32 => "uint32" | KUint Uint64 => "uint64"
  | KUint Uintptr => "uintptr"
  | KFloat Float32 => "float32" | KFloat Float64 => "float64"
  | Complex64 => "complex64" | Complex128 => "complex128"
  | Array => "array" | Chan => "chan" | Func => "func"
  | Interface => "interface" | Map => "map" | Pointer => "ptr"
  | Slice => "slice" | String_ => "string" | Struct => "struct"
  | UnsafePointer => "unsafe.Pointer"
  end.

Definition int_bits (k : IntKind) : Z :=
  match k with Int8 => 8 | Int16 => 16 | Int32 => 32 | Int | Int64 => 64 end.

Definition uint_bits (k : UintKind) : Z :=
  match k with
  | Uint8 => 8 | Uint16 => 16 | Uint32 => 32
  | Uint | Uint64 | Uintptr => 64
  end.

(** What [reflect.Value.SetInt] stores in a field of kind [k]: the int64
    argument converted to the field's width. *)
Definition wrap_int (k : IntKind) (x : Z) : Z :=
  let m := 2 ^ int_bits k in
  let r := x mod m in
  if r <? m / 2 then r else r - m.

(** What [reflect.Value.SetUint] stores in a field of kind [k]. *)
Definition wrap_uint (k : UintKind) (x : Z) : Z := x mod 2 ^ uint_bits k.

(** ** Raw values: what an [interface{}] holds *)

(** A value of a dynamic type that no type switch of the package names:
    [%T], its kind, whether the test that [isEmptyValue] applies to that kind
    holds, and [String()] when the type is a [fmt.Stringer]. *)
Record other : Type := {
  other_type : string;
  other_kind : Kind;
  other_zero : bool;
  other_Stringer : option string
}.

Inductive value : Type :=
| VNil
| VString (s : string)
| VBool (b : bool)
| VInt (k : IntKind) (n : Z)
| VUint (k : UintKind) (n : Z)
| VFloat32 (f : float)
| VFloat64 (f : float)
| VBytes (bs : list Byte.byte)
| VStrings (l : list string)
| VSlice (l : list value)
| VMap (m : gmap string value)
| VOther (o : other).

(** [%T]. *)
Definition typeName (v : value) : string :=
  match v with
  | VNil => "<nil>"
  | VString _ => "string"
  | VBool _ => "bool"
  | VInt k _ => Kind_String (KInt k)
  | VUint k _ => Kind_String (KUint k)
  | VFloat32 _ => "float32"
  | VFloat64 _ => "float64"
  | VBytes _ => "[]uint8"
  | VStrings _ => "[]string"
  | VSlice _ => "[]interface {}"
  | VMap _ => "map[string]interface {}"
  | VOther o => other_type o
  end.

(** [reflect.TypeOf(v).Kind()] for a non-nil [v]. *)
Definition value_Kind (v : value) : Kind :=
  match v with
  | VNil => Invalid
  | VString _ => String_
  | VBool _ => Bool
  | VInt k _ => KInt k
  | VUint k _ => KUint k
  | VFloat32 _ => KFloat Float32
  | VFloat64 _ => KFloat Float64
  | VBytes _ | VStrings _ | VSlice _ => Slice
  | VMap _ => Map
  | VOther o => other_kind o
  end.

(** ** Struct tags and static types *)

(** A struct tag as its key/value pairs in the order written;
    [StructTag.Get] returns the value of the first pair with the key, or the
    empty string. *)
Definition StructTag : Type := list (string * string).

Fixpoint Get (tag : StructTag) (key : string) : string :=
  match tag with
  | [] => ""
  | (k, v) :: rest => if String.eqb k key then v else Get rest key
  end.

Record StructFieldOf (T : Type) : Type := {
  Name : string;
  Tag : StructTag;
  Type_ : T
}.
Arguments Name {T} _.
Arguments Tag {T} _.
Arguments Type_ {T} _.

(** Which receiver declares [UnmarshalText]. *)
Inductive receiver : Set := ByValue | ByPointer.

Inductive typ : Type :=
| TBool
| TInt (k : IntKind)
| TUint (k : UintKind)
| TFloat (k : FloatKind)
| TString
| TSlice (elem : typ)
| TArray (len : nat) (elem : typ)
| TStruct (fields : list (StructFieldOf typ))
| TPtr (elem : typ)
| TOther (k : Kind)
| TText (recv : receiver) (method : nat) (underlying : typ).

Definition StructField : Type := StructFieldOf typ.

(** [Type.Kind()].  [TOther k] stands for a type of a kind the package does
    not look into (complex, chan, func, interface, map, unsafe pointer);
    [TText recv m u] is a defined type with underlying type [u] whose method
    set, or whose pointer's method set, has [UnmarshalText] (method [m]). *)
Fixpoint Kind_of (t : typ) : Kind :=
  match t with
  | TBool => Bool
  | TInt k => KInt k
  | TUint k => KUint k
  | TFloat k => KFloat k
  | TString => String_
  | TSlice _ => Slice
  | TArray _ _ => Array
  | TStruct _ => Struct
  | TPtr _ => Pointer
  | TOther k => k
  | TText _ _ u => Kind_of u
  end.

(** [t.Implements(TextUnmarshaler)]: the method set of [t] has
    [UnmarshalText].  The method set of [*T] holds the methods of both
    receivers of [T]. *)
Definition Implements (t : typ) : bool :=
  match t with
  | TText ByValue _ _ => true
  | TPtr (TText _ _ _) => true
  | _ => false
  end.

(** [reflect.PointerTo(t).Implements(TextUnmarshaler)]. *)
Definition PointerTo_Implements (t : typ) : bool :=
  match t with
  | TText _ _ _ => true
  | _ => false
  end.

(** ** Destination contents *)

Inductive gval : Type :=
| GBool (b : bool)
| GInt (n : Z)
| GUint (n : Z)
| GFloat (f : float)
| GString (s : string)
| GSlice (l : option (list gval))
| GArray (l : list gval)
| GStruct (l : list gval)
| GPtr (p : option gval)
| GOther.

(** The zero value of a type, as [reflect.New] and [reflect.MakeSlice]
    produce it. *)
Fixpoint zero (t : typ) : gval :=
  match t with
  | TBool => GBool false
  | TInt _ => GInt 0
  | TUint _ => GUint 0
  | TFloat _ => GFloat 0%float
  | TString => GString ""
  | TSlice _ => GSlice None
  | TArray n e => GArray (repeat (zero e) n)
  | TStruct fs => GStruct (map (fun f => zero (Type_ f)) fs)
  | TPtr _ => GPtr None
  | TOther _ => GOther
  | TText _ _ u => zero u
  end.

(** ** The request *)

Inductive result (A : Type) : Type :=
| ok (a : A)
| err (e : error).
Arguments ok {A} _.
Arguments err {A} _.

(** An [io.ReadCloser]: the bytes not yet read, and the error (if any) that
    reading past them reports instead of EOF. *)
Record Reader : Type := {
  unread : list Byte.byte;
  read_error : option error
}.

(** [io.ReadAll]: the bytes read, the error, and the reader afterwards. *)
Definition ReadAll (rd : Reader) : list Byte.byte * option error * Reader :=
  (unread rd, read_error rd, {| unread := []; read_error := read_error rd |}).

(** [io.NopCloser(bytes.NewBuffer(b))]. *)
Definition NewBuffer (b : list Byte.byte) : Reader :=
  {| unread := b; read_error := None |}.

(** The parts of [*http.Request] that the package reads.  [Header] has
    canonical keys; [PathValues] are the wildcards matched by the router;
    [URL_Query] is [r.URL.Query()]; [Cookies] are the cookies of the
    [Cookie] header in the order sent. *)
Record Request : Type := {
  Method : string;
  Header : gmap string (list string);
  ContentLength : Z;
  Body : option Reader;
  PathValues : gmap string string;
  URL_Query : gmap string (list string);
  Cookies : list (string * string)
}.

Definition set_Body (r : Request) (b : option Reader) : Request :=
  {| Method := Method r; Header := Header r;
     ContentLength := ContentLength r; Body := b;
     PathValues := PathValues r; URL_Query := URL_Query r;
     Cookies := Cookies r |}.

(** [Header.Get] and [url.Values.Get]: the first value of the key, or the
    empty string. *)
Definition Values_Get (m : gmap string (list string)) (key : string) : string :=
  match m !! key with
  | Some (v :: _) => v
  | _ => ""
  end.

(** [r.PathValue(name)]: the empty string when there is no such wildcard. *)
Definition PathValue (r : Request) (name : string) : string :=
  match PathValues r !! name with
  | Some v => v
  | None => ""
  end.

(** [r.Cookie(name)]: the value of the first cookie of that name, [None] for
    [http.ErrNoCookie]. *)
Definition Cookie (r : Request) (name : string) : option string :=
  if String.eqb name "" then None
  else match List.find (fun c => String.eqb (fst c) name) (Cookies r) with
       | Some c => Some (snd c)
       | None => None
       end.

(** ** What the package takes from outside *)

(** The functions of the Go standard library (and of the language) that the
    package calls and that are not modelled byte by byte. *)
Class GoStd : Type := {
  (** [strings.TrimSpace] and [strings.ToLower] (Unicode aware). *)
  TrimSpace : string -> string;
  ToLower : string -> string;
  (** [strconv.ParseInt(s, 10, 64)], [strconv.ParseUint(s, 10, 64)],
      [strconv.ParseBool(s)], [strconv.ParseFloat(s, 64)]. *)
  ParseInt : string -> result Z;
  ParseUint : string -> result Z;
  ParseBool : string -> result bool;
  ParseFloat : string -> result float;
  (** [fmt.Sprintf("%v", v)]. *)
  Sprint : value -> string;
  (** The conversions [int64(f)], [uint64(f)], [float64(n)], [float32(f)]. *)
  int64_of_float : float -> Z;
  uint64_of_float : float -> Z;
  float_of_int64 : Z -> float;
  float32_of_float : float -> float;
  (** [json.NewDecoder(body).Decode(&m)] for [m] a nil
      [map[string]interface{}]. *)
  json_Decode : list Byte.byte -> result (gmap string value);
  (** [r.ParseForm()]: the error, or [r.PostForm] afterwards. *)
  ParseForm : Request -> result (gmap string (list string))
}.

(** The methods that the caller's types supply.  [UnmarshalText m recv text]
    is method [m] run on the value that the receiver designates ([None] for
    a nil pointer receiver): that value afterwards, and the error. *)
Class UserMethods : Type := {
  UnmarshalText : nat -> option gval -> list Byte.byte -> option gval * option error
}.

Section Binder.

Context {std : GoStd} {usr : UserMethods}.

(** ** Coercion helpers *)

(** toString converts various types to string *)
Definition toString (v : value) : result string :=
  match v with
  | VString s => ok s
  | VBytes bs => ok (string_of_list_byte bs)
  | VOther o =>
      match other_Stringer o with
      | Some s => ok s
      | None => ok (Sprint v)
      end
  | _ => ok (Sprint v)
  end.

(** setString sets a string value to a field *)
Definition setString (field : gval) (v : value) : gval * option error :=
  match toString v with
  | err e => (field, Some e)
  | ok str => (GString str, None)
  end.

(** setInt sets an integer value to a field *)
Definition setInt (k : IntKind) (field : gval) (v : value) : gval * option error :=
  match v with
  | VInt _ n => (GInt (wrap_int k n), None)
  | VFloat32 f => (GInt (wrap_int k (int64_of_float f)), None)
  | VFloat64 f => (GInt (wrap_int k (int64_of_float f)), None)
  | VString s =>
      match ParseInt s with
      | err e => (field, Some e)
      | ok i => (GInt (wrap_int k i), None)
      end
  | _ => (field, Some (errorString ("cannot convert " ++ typeName v ++ " to int")))
  end.

(** setUint sets an unsigned integer value to a field *)
Definition setUint (k : UintKind) (field : gval) (v : value) : gval * option error :=
  match v with
  | VUint Uintptr _ =>
      (field, Some (errorString ("cannot convert " ++ typeName v ++ " to uint")))
  | VUint _ n => (GUint (wrap_uint k n), None)
  | VInt Int n =>
      if n <? 0 then (field, Some (errorString "cannot convert negative int to uint"))
      else (GUint (wrap_uint k n), None)
  | VFloat64 f =>
      if PrimFloat.ltb f 0%float
      then (field, Some (errorString "cannot convert negative float to uint"))
      else (GUint (wrap_uint k (uint64_of_float f)), None)
  | VString s =>
      match ParseUint s with
      | err e => (field, Some e)
      | ok i => (GUint (wrap_uint k i), None)
      end
  | _ => (field, Some (errorString ("cannot convert " ++ typeName v ++ " to uint")))
  end.

(** setBool sets a boolean value to a field *)
Definition setBool (field : gval) (v : value) : gval * option error :=
  match v with
  | VBool b => (GBool b, None)
  | VString s =>
      match ParseBool s with
      | err e => (field, Some e)
      | ok b => (GBool b, None)
      end
  | VInt Int n => (GBool (negb (n =? 0)), None)
  | VFloat64 f => (GBool (negb (PrimFloat.eqb f 0%float)), None)
  | _ => (field, Some (errorString ("cannot convert " ++ typeName v ++ " to bool")))
  end.

(** What [reflect.Value.SetFloat] stores in a field of kind [k]. *)
Definition store_float (k : FloatKind) (f : float) : float :=
  match k with
  | Float32 => float32_of_float f
  | Float64 => f
  end.

(** setFloat sets a floating point value to a field *)
Definition setFloat (k : FloatKind) (field : gval) (v : value) : gval * option error :=
  match v with
  | VFloat32 f => (GFloat (store_float k f), None)
  | VFloat64 f => (GFloat (store_float k f), None)
  | VInt _ n => (GFloat (store_float k (float_of_int64 n)), None)
  | VString s =>
      match ParseFloat s with
      | err e => (field, Some e)
      | ok f => (GFloat (store_float k f), None)
      end
  | _ => (field, Some (errorString ("cannot convert " ++ typeName v ++ " to float")))
  end.

(** [%d]. *)
Definition itoa (i : nat) : string := NilZero.string_of_uint (Nat.to_uint i).

(** [field.Elem()] of a pointer of element type [e], after
    [if field.IsNil() { field.Set(reflect.New(e)) }]. *)
Definition Elem_or_New (e : typ) (field : gval) : gval :=
  match field with
  | GPtr (Some g) => g
  | _ => zero e
  end.

Definition is_nil_value (v : value) : bool :=
  match v with VNil => true | _ => false end.

(** The [encoding.TextUnmarshaler] branches of [setField]:
    [field.Interface().(encoding.TextUnmarshaler).UnmarshalText(..)] when
    the field's type has the method, and [field.Addr().Interface()...] when
    its pointer type has it. *)
Definition setText_Interface (t : typ) (field : gval) (v : value) : gval * option error :=
  match v with
  | VString strVal =>
      match t, field with
      | TPtr (TText recv m _), GPtr p =>
          let '(p', e) := UnmarshalText m p (list_byte_of_string strVal) in
          (GPtr (match recv with ByPointer => p' | ByValue => p end), e)
      | TText _ m _, _ =>
          (field, snd (UnmarshalText m (Some field) (list_byte_of_string strVal)))
      | _, _ => (field, None)
      end
  | _ => (field, Some (errorString "value is not a string for TextUnmarshaler"))
  end.

Definition setText_Addr (t : typ) (field : gval) (v : value) : gval * option error :=
  match v with
  | VString strVal =>
      match t with
      | TText _ m _ =>
          let '(p', e) := UnmarshalText m (Some field) (list_byte_of_string strVal) in
          (match p' with Some g => g | None => field end, e)
      | _ => (field, None)
      end
  | _ => (field, Some (errorString "value is not a string for TextUnmarshaler"))
  end.

(** The tag that [setStruct] and [BindStruct] look a sub-field up by:
    [tag := Tag.Get(body); if tag == "" { tag = Tag.Get(jjson) }]. *)
Definition nested_tag (tag : StructTag) : string :=
  if String.eqb (Get tag body) "" then Get tag jjson else Get tag body.

(** setSlice sets a slice value to a field of element type [e].  The
    function is handed [setField] for its calls on the elements; the fresh
    slice [s] is stored in the field only when every element was set. *)
Definition setSlice (setField : typ -> gval -> value -> gval * option error)
    (e : typ) (field : gval) (v : value) : gval * option error :=
  match v with
  | VSlice l =>
      let fill :=
        (fix fill (l : list value) (i : nat) {struct l} : result (list gval) :=
           match l with
           | [] => ok []
           | vi :: l' =>
               let '(elem, oe) :=
                 match e with
                 | TPtr e' =>
                     let '(g, oe) := setField e' (zero e') vi in
                     (GPtr (Some g), oe)
                 | _ => setField e (zero e) vi
                 end in
               match oe with
               | Some er =>
                   err (wrapError ("error setting slice element at index " ++ itoa i ++ ": ") er)
               | None =>
                   match fill l' (S i) with
                   | err er => err er
                   | ok s => ok (elem :: s)
                   end
               end
           end) in
      match fill l 0%nat with
      | err er => (field, Some er)
      | ok s => (GSlice (Some s), None)
      end
  | VString strVal =>
      match Kind_of e with
      | String_ => (GSlice (Some [GString strVal]), None)
      | _ => (field, Some (errorString ("cannot convert " ++ typeName v ++ " to slice")))
      end
  | _ => (field, Some (errorString ("cannot convert " ++ typeName v ++ " to slice")))
  end.

(** setStruct sets a struct value to a field with the fields [fs].  The
    function is handed [setField] for its calls on the sub-fields, which
    are assigned in place. *)
Definition setStruct (setField : typ -> gval -> value -> gval * option error)
    (fs : list StructField) (field : gval) (v : value) : gval * option error :=
  match v with
  | VMap structMap =>
      let assign :=
        (fix assign (fs : list StructField) (vals : list gval) {struct fs}
           : list gval * option error :=
           match fs, vals with
           | nestedStructType :: fs', nestedField :: vals' =>
               let tagValue := nested_tag (Tag nestedStructType) in
               let '(g, oe) :=
                 if String.eqb tagValue "" then (nestedField, None)
                 else match structMap !! tagValue with
                      | Some nestedVal =>
                          let '(g, oe) := setField (Type_ nestedStructType) nestedField nestedVal in
                          (g, match oe with
                              | Some er => Some (wrapError ("error setting nested field '" ++ Name nestedStructType ++ "': ") er)
                              | None => None
                              end)
                      | None => (nestedField, None)
                      end in
               match oe with
               | Some er => (g :: vals', Some er)
               | None => let '(vals'', oe') := assign fs' vals' in (g :: vals'', oe')
               end
           | _, _ => (vals, None)
           end) in
      match field with
      | GStruct vals => let '(vals', oe) := assign fs vals in (GStruct vals', oe)
      | _ => (field, None)
      end
  | _ =>
      match value_Kind v with
      | Map => (field, Some (errorString "value mismatch for struct mapping"))
      | _ => (field, Some (errorString ("cannot set struct field with value of type " ++ typeName v)))
      end
  end.

(** setField sets the appropriate value on the given reflect.Value field.
    Every field that the package reaches lies in the record behind the
    target pointer or in a slice, so [field.CanAddr()] holds; a [TText]
    type therefore passes one of the two tests before the switch and never
    reaches it. *)
Fixpoint setField (t : typ) (field : gval) (v : value) {struct t} : gval * option error :=
  if is_nil_value v then (field, None)
  else if Implements t then setText_Interface t field v
  else if PointerTo_Implements t then setText_Addr t field v
  else
    match t with
    | TString => setString field v
    | TInt k => setInt k field v
    | TFloat k => setFloat k field v
    | TBool => setBool field v
    | TUint Uintptr =>
        (field, Some (errorString ("unsupported type: " ++ Kind_String (KUint Uintptr))))
    | TUint k => setUint k field v
    | TSlice e => setSlice setField e field v
    | TArray _ _ =>
        (field, Some (errorString "arrays are not supported, use slices instead"))
    | TStruct fs => setStruct setField fs field v
    | TPtr e =>
        let '(g, oe) := setField e (Elem_or_New e field) v in
        (GPtr (Some g), oe)
    | TOther k => (field, Some (errorString ("unsupported type: " ++ Kind_String k)))
    | TText _ _ _ => (field, None)
    end.

(** isEmptyValue checks if a value is empty or zero *)
Definition isEmptyValue (v : value) : bool :=
  match v with
  | VNil => true
  | VString s => (String.length s =? 0)%nat
  | VBytes bs => (List.length bs =? 0)%nat
  | VStrings l => (List.length l =? 0)%nat
  | VSlice l => (List.length l =? 0)%nat
  | VMap m => (size m =? 0)%nat
  | VBool b => negb b
  | VInt _ n => n =? 0
  | VUint _ n => n =? 0
  | VFloat32 f => PrimFloat.eqb f 0%float
  | VFloat64 f => PrimFloat.eqb f 0%float
  | VOther o =>
      match other_kind o with
      | String_ | Array | Map | Slice | Bool | KInt _ | KUint _ | KFloat _
      | Interface | Pointer => other_zero o
      | _ => false
      end
  end.

(** ** The request body *)

(** The loop of [parseContentType] over the parts of the header. *)
Fixpoint first_plain_part (parts : list string) : string :=
  match parts with
  | [] => ""
  | part :: rest =>
      let part := TrimSpace part in
      if negb (strings.Contains part "=") then ToLower part
      else first_plain_part rest
  end.

(** parseContentType extracts the content type from the Content-Type header *)
Definition parseContentType (header : string) : string :=
  first_plain_part (strings.Split header ";"%char).

(** The bytes that a decoder reading [r.Body] sees. *)
Definition Body_bytes (r : Request) : list Byte.byte :=
  match Body r with
  | Some rd => unread rd
  | None => []
  end.

(** [reqBody[k] = v[0]] when [len(v) == 1], [reqBody[k] = v] otherwise. *)
Definition form_value (v : list string) : value :=
  match v with
  | [x] => VString x
  | _ => VStrings v
  end.

(** parseBody extracts and parses the request body into a map *)
Definition parseBody (r : Request) : result (gmap string value) :=
  let ct := parseContentType (Values_Get (Header r) "Content-Type") in
  if String.eqb ct "application/json" then
    match json_Decode (Body_bytes r) with
    | err e => err (wrapError "failed to decode JSON body: " e)
    | ok reqBody => ok reqBody
    end
  else if String.eqb ct "application/x-www-form-urlencoded" then
    match ParseForm r with
    | err e => err (wrapError "failed to parse form data: " e)
    | ok PostForm => ok (form_value <$> PostForm)
    end
  else ok ∅.

(** What happens on the request while [Bind] runs, in order: the body stream
    is read to its end, the body stream is replaced, the target's
    [Validate] is invoked on a record. *)
Inductive event : Type :=
| EvReadBody
| EvSetBody (b : list Byte.byte)
| EvValidate (receiver : gval).

Definition is_EvValidate (ev : event) : bool :=
  match ev with EvValidate _ => true | _ => false end.

(** Lines 117-143 of [Bind]: the request afterwards, the events, and either
    the intermediate body map or the error of [io.ReadAll]. *)
Definition Bind_body (r : Request) : Request * list event * result (gmap string value) :=
  match Body r with
  | Some rd =>
      if ContentLength r >? 0 then
        let '(bodyBytes, oe, rd') := ReadAll rd in
        match oe with
        | Some e =>
            (set_Body r (Some rd'), [EvReadBody],
             err (wrapError "error reading request body: " e))
        | None =>
            let r' := set_Body r (Some (NewBuffer bodyBytes)) in
            let rCopy := set_Body r' (Some (NewBuffer bodyBytes)) in
            (r', [EvReadBody; EvSetBody bodyBytes],
             match parseBody rCopy with
             | err _ => ok ∅
             | ok b => ok b
             end)
        end
      else (r, [], ok ∅)
  | None => (r, [], ok ∅)
  end.

(** ** Per-field resolution *)

(** The [switch] of [Bind] (lines 162-191): [None] for the [default] branch,
    otherwise [v] and [exists]. *)
Definition Bind_source (r : Request) (b : gmap string value)
    (pathTag queryTag bodyTag jsonTag cookieTag : string) : option (value * bool) :=
  if negb (String.eqb pathTag "") then
    let v := PathValue r pathTag in
    Some (VString v, negb (String.eqb v ""))
  else if negb (String.eqb queryTag "") then
    let paramName := queryTag in
    let commaIndex := strings.Index paramName "," in
    let paramName := if negb (commaIndex =? -1) then slice_to paramName commaIndex else paramName in
    let v := Values_Get (URL_Query r) paramName in
    Some (VString v, negb (String.eqb v ""))
  else if negb (String.eqb bodyTag "") then
    match b !! bodyTag with
    | Some v => Some (v, true)
    | None => Some (VNil, false)
    end
  else if negb (String.eqb jsonTag "") then
    match b !! jsonTag with
    | Some v => Some (v, true)
    | None => Some (VNil, false)
    end
  else if negb (String.eqb cookieTag "") then
    match Cookie r cookieTag with
    | Some c => Some (VString c, true)
    | None => Some (VNil, false)
    end
  else None.

(** [omitEmpty] as line 157 of [Bind] computes it. *)
Definition Bind_omitEmpty (tag : StructTag) : bool :=
  strings.Contains (Get tag path ++ Get tag query ++ Get tag body ++ Get tag jjson ++ Get tag cookie) "omitempty".

(** [if f.Kind() == reflect.Ptr && f.IsNil() { f.Set(reflect.New(f.Type().Elem())) }]. *)
Definition init_nil (t : typ) (f : gval) : gval :=
  match t, f with
  | TPtr e, GPtr None => GPtr (Some (zero e))
  | _, _ => f
  end.

(** [f.Kind() == reflect.Struct || (f.Kind() == reflect.Ptr && f.Elem().Kind() == reflect.Struct)]
    for a non-nil pointer [f]. *)
Definition struct_or_ptr_to_struct (t : typ) : bool :=
  match Kind_of t with
  | Struct => true
  | Pointer =>
      match t with
      | TPtr e => match Kind_of e with Struct => true | _ => false end
      | _ => false
      end
  | _ => false
  end.

(** [NumField] and [Field(i)] of a struct type. *)
Fixpoint struct_fields (t : typ) : list StructField :=
  match t with
  | TStruct fs => fs
  | TText _ _ u => struct_fields u
  | _ => []
  end.

(** The loop of [BindStruct] over the fields of [target]. *)
Fixpoint BindStruct_fields (fs : list StructField) (vals : list gval)
    (data : gmap string value) : list gval * option error :=
  match fs, vals with
  | fieldType :: fs', nestedField :: vals' =>
      let tag := nested_tag (Tag fieldType) in
      let '(g, oe) :=
        if String.eqb tag "" then (nestedField, None)
        else match data !! tag with
             | None => (nestedField, None)
             | Some nestedValue =>
                 let nestedField := init_nil (Type_ fieldType) nestedField in
                 let '(g, oe) := setField (Type_ fieldType) nestedField nestedValue in
                 (g, match oe with
                     | Some er => Some (wrapError ("error setting nested field " ++ Name fieldType ++ ": ") er)
                     | None => None
                     end)
             end in
      match oe with
      | Some er => (g :: vals', Some er)
      | None => let '(vals'', oe') := BindStruct_fields fs' vals' data in (g :: vals'', oe')
      end
  | _, _ => (vals, None)
  end.

(** BindStruct recursively binds data from a map to a struct field, handling
    nested structures.  [field] is a struct or a pointer to a struct. *)
Definition BindStruct (t : typ) (field : gval) (data : gmap string value) : gval * option error :=
  match t with
  | TPtr e =>
      match Elem_or_New e field with
      | GStruct vals =>
          let '(vals', oe) := BindStruct_fields (struct_fields e) vals data in
          (GPtr (Some (GStruct vals')), oe)
      | target => (GPtr (Some target), None)
      end
  | _ =>
      match field with
      | GStruct vals =>
          let '(vals', oe) := BindStruct_fields (struct_fields t) vals data in
          (GStruct vals', oe)
      | _ => (field, None)
      end
  end.

(** The body of the loop of [Bind] (lines 147-213) for the field described
    by [field] with content [f]: the content afterwards and the error that
    ends the loop, if any. *)
Definition Bind_field (r : Request) (b : gmap string value)
    (field : StructField) (f : gval) : gval * option error :=
  let tag := Tag field in
  let pathTag := Get tag path in
  let queryTag := Get tag query in
  let bodyTag := Get tag body in
  let jsonTag := Get tag jjson in
  let cookieTag := Get tag cookie in
  let omitEmpty := Bind_omitEmpty tag in
  match Bind_source r b pathTag queryTag bodyTag jsonTag cookieTag with
  | None => (f, None)
  | Some (v, exists_) =>
      if negb exists_ || (omitEmpty && isEmptyValue v) then (f, None)
      else
        let f := init_nil (Type_ field) f in
        match (if struct_or_ptr_to_struct (Type_ field)
               then match v with VMap nestedMap => Some nestedMap | _ => None end
               else None) with
        | Some nestedMap =>
            let '(g, oe) := BindStruct (Type_ field) f nestedMap in
            (g, match oe with
                | Some er => Some (wrapError ("error binding nested field " ++ Name field ++ ": ") er)
                | None => None
                end)
        | None =>
            let '(g, oe) := setField (Type_ field) f v in
            (g, match oe with
                | Some er => Some (wrapError ("error setting field " ++ Name field ++ ": ") er)
                | None => None
                end)
        end
  end.

(** The loop of [Bind] over the fields, in declaration order. *)
Fixpoint Bind_fields (r : Request) (b : gmap string value)
    (fs : list StructField) (vals : list gval) : list gval * option error :=
  match fs, vals with
  | field :: fs', f :: vals' =>
      let '(g, oe) := Bind_field r b field f in
      match oe with
      | Some er => (g :: vals', Some er)
      | None => let '(vals'', oe') := Bind_fields r b fs' vals' in (g :: vals'', oe')
      end
  | _, _ => (vals, None)
  end.

(** ** The field metadata cache *)

(** fieldInfo stores cached reflection data for struct fields *)
Record fieldInfo : Type := {
  Index : Z;
  FieldType : StructField;
  Source : string;
  TagName : string;
  OmitEmpty : bool
}.

(** The entry that [getFieldInfo] stores for field [i] when [tag], the value
    of the marker [source], is the first non-empty one. *)
Definition fieldInfo_of (i : Z) (field : StructField) (source tag : string) : fieldInfo :=
  {| Index := i; FieldType := field; Source := source; TagName := tag;
     OmitEmpty := strings.Contains tag "omitempty" |}.

(** The body of the loop of [getFieldInfo] for field [i]. *)
Definition getFieldInfo_field (field : StructField) (i : Z)
    (info : gmap string fieldInfo) : gmap string fieldInfo :=
  if negb (String.eqb (Get (Tag field) path) "") then
    <[Name field := fieldInfo_of i field path (Get (Tag field) path)]> info
  else if negb (String.eqb (Get (Tag field) query) "") then
    <[Name field := fieldInfo_of i field query (Get (Tag field) query)]> info
  else if negb (String.eqb (Get (Tag field) body) "") then
    <[Name field := fieldInfo_of i field body (Get (Tag field) body)]> info
  else if negb (String.eqb (Get (Tag field) jjson) "") then
    <[Name field := fieldInfo_of i field jjson (Get (Tag field) jjson)]> info
  else if negb (String.eqb (Get (Tag field) cookie) "") then
    <[Name field := fieldInfo_of i field cookie (Get (Tag field) cookie)]> info
  else info.

(** The loop of [getFieldInfo] over the fields, from field [i] on. *)
Fixpoint getFieldInfo_fields (fs : list StructField) (i : Z)
    (info : gmap string fieldInfo) : gmap string fieldInfo :=
  match fs with
  | [] => info
  | field :: rest => getFieldInfo_fields rest (i + 1) (getFieldInfo_field field i info)
  end.

#[local] Instance IntKind_eq_dec : EqDecision IntKind.
Proof. solve_decision. Defined.
#[local] Instance UintKind_eq_dec : EqDecision UintKind.
Proof. solve_decision. Defined.
#[local] Instance FloatKind_eq_dec : EqDecision FloatKind.
Proof. solve_decision. Defined.
#[local] Instance Kind_eq_dec : EqDecision Kind.
Proof. solve_decision. Defined.
#[local] Instance receiver_eq_dec : EqDecision receiver.
Proof. solve_decision. Defined.

(** Identity of [reflect.Type] values, as far as the model describes types. *)
Fixpoint typ_eqb (a b : typ) {struct a} : bool :=
  match a, b with
  | TBool, TBool => true
  | TInt k, TInt k' => bool_decide (k = k')
  | TUint k, TUint k' => bool_decide (k = k')
  | TFloat k, TFloat k' => bool_decide (k = k')
  | TString, TString => true
  | TSlice e, TSlice e' => typ_eqb e e'
  | TArray n e, TArray n' e' => (n =? n')%nat && typ_eqb e e'
  | TStruct fs, TStruct fs' =>
      (fix fields_eqb (fs fs' : list (StructFieldOf typ)) {struct fs} : bool :=
         match fs, fs' with
         | [], [] => true
         | f :: r, f' :: r' =>
             String.eqb (Name f) (Name f')
             && bool_decide (Tag f = Tag f')
             && typ_eqb (Type_ f) (Type_ f')
             && fields_eqb r r'
         | _, _ => false
         end) fs fs'
  | TPtr e, TPtr e' => typ_eqb e e'
  | TOther k, TOther k' => bool_decide (k = k')
  | TText r m u, TText r' m' u' =>
      bool_decide (r = r') && (m =? m')%nat && typ_eqb u u'
  | _, _ => false
  end.

(** [var fieldCache = make(map[reflect.Type]map[string]fieldInfo)]: the
    package-level state. *)
Definition Cache : Type := list (typ * gmap string fieldInfo).

(** [fieldCache[typ]]. *)
Fixpoint Cache_lookup (fieldCache : Cache) (t : typ) : option (gmap string fieldInfo) :=
  match fieldCache with
  | [] => None
  | (t', info) :: rest => if typ_eqb t' t then Some info else Cache_lookup rest t
  end.

(** [fieldCache[typ] = info]. *)
Definition Cache_store (fieldCache : Cache) (t : typ) (info : gmap string fieldInfo) : Cache :=
  (t, info) :: List.filter (fun e => negb (typ_eqb (fst e) t)) fieldCache.

(** getFieldInfo returns cached field information for a struct type.  The
    state of the package is passed in and out; in a sequential run the
    second look-up, under the write lock, sees what the first one saw. *)
Definition getFieldInfo (t : typ) (fieldCache : Cache) : gmap string fieldInfo * Cache :=
  match Cache_lookup fieldCache t with
  | Some info => (info, fieldCache)
  | None =>
      match Cache_lookup fieldCache t with
      | Some info => (info, fieldCache)
      | None =>
          let info := getFieldInfo_fields (struct_fields t) 0 ∅ in
          (info, Cache_store fieldCache t info)
      end
  end.

(** ** Bind *)

(** The argument [i] of [Bind]: a pointer to a record of a struct type, the
    contents of its fields in declaration order, and the [Validate] method
    when the type implements [Validator] (it reads the record). *)
Record Target : Type := {
  Target_type : typ;
  Target_fields : list gval;
  Target_Validate : option (list gval -> option error)
}.

(** What a call of [Bind] leaves: the returned error, the request, the
    fields of the record, and the events in order. *)
Record Outcome : Type := {
  Bind_error : option error;
  Bind_request : Request;
  Bind_record : list gval;
  Bind_events : list event
}.

(** Lines 216-223 of [Bind]. *)
Definition Bind_validate (i : Target) (vals : list gval) : option error * list event :=
  match Target_Validate i with
  | Some validate =>
      (match validate vals with
       | Some e => Some (wrapError "validation failed: " e)
       | None => None
       end, [EvValidate (GStruct vals)])
  | None => (None, [])
  end.

(** Bind maps data from an HTTP request into a struct using reflection and
    struct tags.  The state of the package goes in and comes out. *)
Definition Bind (r : Request) (i : Target) (fieldCache : Cache) : Outcome * Cache :=
  let typ := Target_type i in
  let val := Target_fields i in
  let '(r, evs, rb) := Bind_body r in
  match rb with
  | err e =>
      ({| Bind_error := Some e; Bind_request := r; Bind_record := val;
          Bind_events := evs |}, fieldCache)
  | ok b =>
      let '(val, oe) := Bind_fields r b (struct_fields typ) val in
      match oe with
      | Some e =>
          ({| Bind_error := Some e; Bind_request := r; Bind_record := val;
              Bind_events := evs |}, fieldCache)
      | None =>
          let '(oe, evs') := Bind_validate i val in
          ({| Bind_error := oe; Bind_request := r; Bind_record := val;
              Bind_events := evs ++ evs' |}, fieldCache)
      end
  end.

End Binder.

(** ** The specification's vocabulary

    These definitions follow the words of the specification, not the code:
    the precedence order of the markers, the winning marker of a field, and
    the reading of a marker value as a key name followed by modifiers. *)

Module Spec.

(** The recognized source markers, in precedence order. *)
Definition markers : list string := [path; query; body; jjson; cookie].

(** The first marker of [ms] with a non-empty value on [tag], with that
    value. *)
Fixpoint first_nonempty (tag : StructTag) (ms : list string) : option (string * string) :=
  match ms with
  | [] => None
  | m :: rest =>
      if String.eqb (Get tag m) "" then first_nonempty tag rest
      else Some (m, Get tag m)
  end.

(** The winning marker of a field. *)
Definition winning_marker (tag : StructTag) : option (string * string) :=
  first_nonempty tag markers.

(** A field on which only the winning marker is declared. *)
Definition only_winner (tag : StructTag) : StructTag :=
  match winning_marker tag with
  | Some (m, v) => [(m, v)]
  | None => []
  end.

(** The key name of a marker value: the segment before the first comma. *)
Definition key_name (v : string) : string :=
  match strings.Split v ","%char with
  | k :: _ => k
  | [] => ""
  end.

(** The modifiers of a marker value: the segments after the first comma. *)
Definition modifiers (v : string) : list string :=
  match strings.Split v ","%char with
  | _ :: ms => ms
  | [] => []
  end.

(** [omitempty] is one of the modifiers of the marker value. *)
Definition omitempty_modifier (v : string) : bool :=
  existsb (String.eqb "omitempty") (modifiers v).

(** [omitEmpty] of a field as the specification defines it. *)
Definition omitEmpty (tag : StructTag) : bool :=
  match winning_marker tag with
  | Some (_, v) => omitempty_modifier v
  | None => false
  end.

End Spec.

(** [Bind_source] on the five marker values of a tag, as [Bind] calls it. *)
Definition Bind_resolve (r : Request) (b : gmap string value)
    (tag : StructTag) : option (value * bool) :=
  Bind_source r b (Get tag path) (Get tag query) (Get tag body) (Get tag jjson) (Get tag cookie).

(** ** A reference environment

    A small instance of [GoStd] and [UserMethods] on which the model runs:
    the string functions on ASCII text, the parsers of [strconv] on decimal
    numbers with their error texts, [%v] on scalars, the conversion to
    binary32, and a decoder that knows the documents below. *)

Module Demo.

Definition lower_byte (c : ascii) : ascii :=
  let n := nat_of_ascii c in
  if ((65 <=? n) && (n <=? 90))%nat then ascii_of_nat (n + 32) else c.

Fixpoint lower (s : string) : string :=
  match s with
  | EmptyString => EmptyString
  | String c s' => String (lower_byte c) (lower s')
  end.

(** The white space of [strings.TrimSpace] among the ASCII bytes: tab, line
    feed, vertical tab, form feed, carriage return and space. *)
Definition is_space (c : ascii) : bool :=
  let n := nat_of_ascii c in
  ((9 <=? n) && (n <=? 13) || (n =? 32))%nat.

Fixpoint trim_left (s : string) : string :=
  match s with
  | String c s' => if is_space c then trim_left s' else s
  | EmptyString => s
  end.

Fixpoint rev_string (s acc : string) : string :=
  match s with
  | EmptyString => acc
  | String c s' => rev_string s' (String c acc)
  end.

Definition trim (s : string) : string :=
  rev_string (trim_left (rev_string (trim_left s) "")) "".

Definition quote : string := String (ascii_of_nat 34) EmptyString.

(** [strconv.Quote] on printable ASCII text: the text between double
    quotes, with a backslash before each double quote and backslash. *)
Fixpoint escape (s : string) : string :=
  match s with
  | EmptyString => EmptyString
  | String c s' =>
      if ((nat_of_ascii c =? 34) || (nat_of_ascii c =? 92))%nat
      then String (ascii_of_nat 92) (String c (escape s'))
      else String c (escape s')
  end.

Definition quoted (s : string) : string := quote ++ escape s ++ quote.

Definition syntax_error (fn s : string) : error :=
  errorString ("strconv." ++ fn ++ ": parsing " ++ quoted s ++ ": invalid syntax").

Definition range_error (fn s : string) : error :=
  errorString ("strconv." ++ fn ++ ": parsing " ++ quoted s ++ ": value out of range").

(** The number that a non-empty sequence of decimal digits denotes. *)
Definition digits (s : string) : option Z :=
  match s with
  | EmptyString => None
  | _ => option_map Z.of_uint (NilEmpty.uint_of_string s)
  end.

(** An optional sign, then the rest. *)
Definition sign (s : string) : bool * string :=
  match s with
  | String "-"%char t => (true, t)
  | String "+"%char t => (false, t)
  | _ => (false, s)
  end.

Definition parse_int (s : string) : result Z :=
  let '(neg, ds) := sign s in
  match digits ds with
  | Some u =>
      let n := if neg then - u else u in
      if (- 2 ^ 63 <=? n) && (n <? 2 ^ 63) then ok n
      else err (range_error "ParseInt" s)
  | None => err (syntax_error "ParseInt" s)
  end.

Definition parse_uint (s : string) : result Z :=
  match digits s with
  | Some n =>
      if n <? 2 ^ 64 then ok n
      else err (range_error "ParseUint" s)
  | None => err (syntax_error "ParseUint" s)
  end.

Definition parse_bool (s : string) : result bool :=
  if existsb (String.eqb s) ["1"; "t"; "T"; "TRUE"; "true"; "True"] then ok true
  else if existsb (String.eqb s) ["0"; "f"; "F"; "FALSE"; "false"; "False"] then ok false
  else err (syntax_error "ParseBool" s).

Definition float_of_Z (n : Z) : float :=
  let a := PrimFloat.of_uint63 (Uint63.of_Z (Z.abs n)) in
  if n <? 0 then PrimFloat.opp a else a.

(** [strconv.ParseFloat(s, 64)] on the decimal numbers that convert exactly:
    an optional sign and digits with an optional point, the digits making a
    number below 2^53 with at most 18 of them after the point (the digits
    and the power of ten are then floats, and their quotient is the float
    nearest to the number), or a whole number below 2^63.  Longer numbers,
    exponents and the special values are outside this instance and
    refused. *)
Definition parse_float (s : string) : result float :=
  let '(neg, ds) := sign s in
  let whole := match strings.Split ds "."%char with w :: _ => w | [] => "" end in
  let frac := match strings.Split ds "."%char with
              | [_; f] => Some f
              | [_] => Some ""
              | _ => None
              end in
  match frac with
  | Some frac =>
      match digits ("0" ++ whole ++ frac) with
      | Some m =>
          let exact :=
            ((m <? 2 ^ 53) && (String.length frac <=? 18)%nat)
            || ((m <? 2 ^ 63) && String.eqb frac "") in
          if (String.eqb whole "" && String.eqb frac "") || negb exact
          then err (syntax_error "ParseFloat" s)
          else
            let a := PrimFloat.div (float_of_Z m)
                       (float_of_Z (10 ^ Z.of_nat (String.length frac))) in
            ok (if neg then PrimFloat.opp a else a)
      | None => err (syntax_error "ParseFloat" s)
      end
  | None => err (syntax_error "ParseFloat" s)
  end.

(** [int64(f)]: the integer part of [f]; Go leaves the result open when it
    does not fit, here it is what the amd64 conversion gives for infinities
    and NaN. *)
Definition trunc (f : float) : Z :=
  match Prim2SF f with
  | S754_finite s m e =>
      let a := if 0 <=? e then Z.pos m * 2 ^ e else Z.pos m / 2 ^ (- e) in
      if s then - a else a
  | S754_zero _ => 0
  | _ => - 2 ^ 63
  end.

(** [float32(f)]: [f] rounded to the nearest number of 24 bits of precision,
    ties to even, with the exponent range of binary32. *)
Definition to_float32 (f : float) : float :=
  match Prim2SF f with
  | S754_finite s m e =>
      SF2Prim (binary_normalize 24 128 (if s then Z.neg m else Z.pos m) e s)
  | _ => f
  end.

Definition string_of_Z (n : Z) : string := NilZero.string_of_int (Z.to_int n).

(** The [%v] text of a float that is a whole number of at most six digits,
    an infinity or not a number; [None] for the other floats. *)
Definition sprint_float (f : float) : option string :=
  match Prim2SF f with
  | S754_zero true => Some "-0"
  | S754_infinity false => Some "+Inf"
  | S754_infinity true => Some "-Inf"
  | S754_nan => Some "NaN"
  | _ =>
      let n := trunc f in
      if PrimFloat.eqb (float_of_Z n) f && (Z.abs n <? 10 ^ 6)
      then Some (string_of_Z n)
      else None
  end.

(** [fmt.Sprintf("%v", v)] on nil, strings, booleans, integers and the
    floats above; for the other values the name of the type stands in for
    the text. *)
Definition sprint (v : value) : string :=
  match v with
  | VNil => "<nil>"
  | VString s => s
  | VBool b => if b then "true" else "false"
  | VInt _ n | VUint _ n => string_of_Z n
  | VFloat32 f | VFloat64 f =>
      match sprint_float f with
      | Some s => s
      | None => typeName v
      end
  | _ => typeName v
  end.

(** [{"email":"a@b.io"}], [{"name":""}] and [{"dims":null}]. *)
Definition doc_email : string :=
  "{" ++ quote ++ "email" ++ quote ++ ":" ++ quote ++ "a@b.io" ++ quote ++ "}".
Definition doc_name : string :=
  "{" ++ quote ++ "name" ++ quote ++ ":" ++ quote ++ quote ++ "}".
Definition doc_dims : string :=
  "{" ++ quote ++ "dims" ++ quote ++ ":null}".

Definition decode (bs : list Byte.byte) : result (gmap string value) :=
  let s := string_of_list_byte bs in
  if String.eqb s doc_email then ok {[ "email" := VString "a@b.io" ]}
  else if String.eqb s doc_name then ok {[ "name" := VString "" ]}
  else if String.eqb s doc_dims then ok {[ "dims" := VNil ]}
  else err (errorString "invalid character").

Definition std : GoStd := {|
  TrimSpace := trim;
  ToLower := lower;
  ParseInt := parse_int;
  ParseUint := parse_uint;
  ParseBool := parse_bool;
  ParseFloat := parse_float;
  Sprint := sprint;
  int64_of_float := trunc;
  uint64_of_float := trunc;
  float_of_int64 := float_of_Z;
  float32_of_float := to_float32;
  json_Decode := decode;
  ParseForm := fun _ => ok ∅
|}.

Definition usr : UserMethods := {|
  UnmarshalText := fun _ recv _ => (recv, None)
|}.

(** [POST /users/7?email=q@b.io] with a JSON body and a session cookie. *)
Definition request (content_type : string) (doc : string) : Request := {|
  Method := "POST";
  Header := {[ "Content-Type" := [content_type] ]};
  ContentLength := Z.of_nat (String.length doc);
  Body := Some (NewBuffer (list_byte_of_string doc));
  PathValues := {[ "id" := "7" ]};
  URL_Query := {[ "email" := ["q@b.io"] ]};
  Cookies := [("session", "s3cr3t"); ("email", "c@b.io")]
|}.

Definition field (name : string) (tag : StructTag) (t : typ) : StructField :=
  {| Name := name; Tag := tag; Type_ := t |}.

(** [struct { ID int `path:"id"`; Email string `body:"email,omitempty"`;
    Session string `cookie:"session"` }]. *)
Definition user_type : typ :=
  TStruct [field "ID" [("path", "id")] (TInt Int);
           field "Email" [("body", "email,omitempty")] TString;
           field "Session" [("cookie", "session")] TString].

Definition user (validate : option (list gval -> option error)) : Target := {|
  Target_type := user_type;
  Target_fields := [GInt 0; GString ""; GString ""];
  Target_Validate := validate
|}.

(** [struct { ID int `path:"id"`; Session int `cookie:"session"`;
    Email string `query:"email"` }]: the cookie is not a number. *)
Definition session_type : typ :=
  TStruct [field "ID" [("path", "id")] (TInt Int);
           field "Session" [("cookie", "session")] (TInt Int);
           field "Email" [("query", "email")] TString].

Definition session : Target := {|
  Target_type := session_type;
  Target_fields := [GInt 0; GInt 0; GString ""];
  Target_Validate := None
|}.

(** [struct { Dims [2]int `body:"dims"` }]. *)
Definition box : Target := {|
  Target_type := TStruct [field "Dims" [("body", "dims")] (TArray 2 (TInt Int))];
  Target_fields := [GArray [GInt 1; GInt 2]];
  Target_Validate := None
|}.

(** [func (r User) Validate() error]: the user must have a session. *)
Definition has_session (vals : list gval) : option error :=
  match vals with
  | [_; _; GString ""] => Some (errorString "no session")
  | _ => None
  end.

Definition too_young (vals : list gval) : option error :=
  Some (errorString "user must be 18 or older").

End Demo.

(** ** Well-typed contents

    What Go's type system guarantees of a [reflect.Value] of a given static
    type, stated on the model: integers lie in the range of their kind,
    arrays have their length, records have one content per field. *)

Definition int_in_range (k : IntKind) (n : Z) : bool :=
  (- 2 ^ (int_bits k - 1) <=? n) && (n <? 2 ^ (int_bits k - 1)).

Definition uint_in_range (k : UintKind) (n : Z) : bool :=
  (0 <=? n) && (n <? 2 ^ uint_bits k).

Fixpoint has_type (t : typ) (g : gval) {struct t} : bool :=
  match t, g with
  | TBool, GBool _ => true
  | TInt k, GInt n => int_in_range k n
  | TUint k, GUint n => uint_in_range k n
  | TFloat _, GFloat _ => true
  | TString, GString _ => true
  | TSlice _, GSlice None => true
  | TSlice e, GSlice (Some l) => forallb (has_type e) l
  | TArray n e, GArray l => (List.length l =? n)%nat && forallb (has_type e) l
  | TStruct fs, GStruct l =>
      (fix fields (fs : list (StructFieldOf typ)) (l : list gval) {struct fs} : bool :=
         match fs, l with
         | [], [] => true
         | fd :: fs', g :: l' => has_type (Type_ fd) g && fields fs' l'
         | _, _ => false
         end) fs l
  | TPtr _, GPtr None => true
  | TPtr e, GPtr (Some g) => has_type e g
  | TOther _, GOther => true
  | TText _ _ u, _ => has_type u g
  | _, _ => false
  end.

(** The contents of the fields of a record, one by one. *)
Fixpoint fields_have_type (fs : list StructField) (l : list gval) : bool :=
  match fs, l with
  | [], [] => true
  | fd :: fs', g :: l' => has_type (Type_ fd) g && fields_have_type fs' l'
  | _, _ => false
  end.

(** The type descriptors without a [TText] node in which [TOther] stands
    for a kind that the package does not look into. *)
Definition other_kind_ok (k : Kind) : bool :=
  match k with
  | Complex64 | Complex128 | Chan | Func | Interface | Map | UnsafePointer => true
  | _ => false
  end.

Fixpoint plain (t : typ) : bool :=
  match t with
  | TBool | TInt _ | TUint _ | TFloat _ | TString => true
  | TSlice e | TArray _ e | TPtr e => plain e
  | TStruct fs => forallb (fun fd => plain (Type_ fd)) fs
  | TOther k => other_kind_ok k
  | TText _ _ _ => false
  end.

(** The types for which a failed [setField] has not touched the field:
    everything but records and pointers (and the types with
    [UnmarshalText], whose method decides). *)
Definition atomic (t : typ) : bool :=
  match t with
  | TStruct _ | TPtr _ | TText _ _ _ => false
  | _ => true
  end.

(** ** The element step of [setSlice]

    Lines 590-598: the element [s.Index(i)], a pointer element being
    allocated first, is set from [v[i]]. *)
Definition setSlice_elem `{GoStd} `{UserMethods} (e : typ) (vi : value) : gval * option error :=
  match e with
  | TPtr e' =>
      let '(g, oe) := setField e' (zero e') vi in
      (GPtr (Some g), oe)
  | _ => setField e (zero e) vi
  end.

(** ** The example application (src/example/main.go) *)

Module Example.

Definition field (name : string) (tag : StructTag) (t : typ) : StructField :=
  {| Name := name; Tag := tag; Type_ := t |}.

(** [type CreateUserRequest struct]. *)
Definition CreateUserRequest_type : typ :=
  TStruct [field "Name" [("body", "name")] TString;
           field "Email" [("body", "email")] TString;
           field "Active" [("body", "active")] TBool;
           field "Tags" [("body", "tags")] (TSlice TString)].

(** [r.Name] and [r.Email] of a [CreateUserRequest]. *)
Definition string_at (vals : list gval) (i : nat) : string :=
  match vals !! i with
  | Some (GString s) => s
  | _ => ""
  end.

(** [func (r CreateUserRequest) Validate() error]. *)
Definition CreateUserRequest_Validate (vals : list gval) : option error :=
  if String.eqb (string_at vals 0) "" then Some (errorString "name is required")
  else if String.eqb (string_at vals 1) "" then Some (errorString "email is required")
  else None.

(** [var req CreateUserRequest] as [createUser] hands it to [Bind]. *)
Definition CreateUserRequest : Target := {|
  Target_type := CreateUserRequest_type;
  Target_fields := [GString ""; GString ""; GBool false; GSlice None];
  Target_Validate := Some CreateUserRequest_Validate
|}.

(** [type UpdateUserRequest struct]. *)
Definition UpdateUserRequest_type : typ :=
  TStruct [field "ID" [("path", "id")] (TInt Int);
           field "Name" [("body", "name,omitempty")] TString;
           field "Email" [("body", "email,omitempty")] TString;
           field "Active" [("body", "active,omitempty")] (TPtr TBool);
           field "Tags" [("body", "tags,omitempty")] (TSlice TString)].

(** [var req UpdateUserRequest] as [updateUser] hands it to [Bind]. *)
Definition UpdateUserRequest : Target := {|
  Target_type := UpdateUserRequest_type;
  Target_fields := [GInt 0; GString ""; GString ""; GPtr None; GSlice None];
  Target_Validate := None
|}.

End Example.

(** ** The loops of [setSlice] and [setStruct], named

    The two loops are local to [setSlice] and [setStruct]; they are written
    out here once more, with the element step and the sub-field step, for
    the statements about them ([setSlice_by_fill] and [setStruct_by_assign]
    show that they are the loops of the functions). *)

Section Loops.

Context {std : GoStd} {usr : UserMethods}.

(** The loop of [setSlice] over the elements, from index [i] on. *)
Fixpoint setSlice_fill (e : typ) (l : list value) (i : nat) : result (list gval) :=
  match l with
  | [] => ok []
  | vi :: l' =>
      match setSlice_elem e vi with
      | (_, Some er) =>
          err (wrapError ("error setting slice element at index " ++ itoa i ++ ": ") er)
      | (elem, None) =>
          match setSlice_fill e l' (S i) with
          | err er => err er
          | ok s => ok (elem :: s)
          end
      end
  end.

(** The step of the loop of [setStruct] for one sub-field, and the loop. *)
Definition setStruct_field (structMap : gmap string value)
    (fd : StructField) (g : gval) : gval * option error :=
  let tagValue := nested_tag (Tag fd) in
  if String.eqb tagValue "" then (g, None)
  else match structMap !! tagValue with
       | Some nestedVal =>
           let '(g', oe) := setField (Type_ fd) g nestedVal in
           (g', match oe with
                | Some er => Some (wrapError ("error setting nested field '" ++ Name fd ++ "': ") er)
                | None => None
                end)
       | None => (g, None)
       end.

Fixpoint setStruct_assign (structMap : gmap string value)
    (fs : list StructField) (vals : list gval) : list gval * option error :=
  match fs, vals with
  | fd :: fs', g :: vals' =>
      let '(g', oe) := setStruct_field structMap fd g in
      match oe with
      | Some er => (g' :: vals', Some er)
      | None => let '(vals'', oe') := setStruct_assign structMap fs' vals' in (g' :: vals'', oe')
      end
  | _, _ => (vals, None)
  end.

End Loops.

(** A source that does not supply a value for the field with tag [tag]:
    no marker, an empty path value, an empty or missing query parameter, a
    key that the body map lacks, a cookie that was not sent. *)
Definition unsupplied (r : Request) (b : gmap string value) (tag : StructTag) : Prop :=
  Spec.winning_marker tag = None
  \/ (exists v, Spec.winning_marker tag = Some (path, v) /\ PathValue r v = "")
  \/ (exists v, Spec.winning_marker tag = Some (query, v)
                /\ Values_Get (URL_Query r) (Spec.key_name v) = "")
  \/ (exists v, (Spec.winning_marker tag = Some (body, v)
                 \/ Spec.winning_marker tag = Some (jjson, v))
                /\ b !! v = None)
  \/ (exists v, Spec.winning_marker tag = Some (cookie, v) /\ Cookie r v = None).

(** A source other than the body supplies the string [s] for the field with
    tag [tag]: a non-empty path value, a non-empty first value of the query
    parameter, or a cookie that was sent (an empty cookie value does not
    count on a field that line 157 takes for omitEmpty). *)
Definition supplied_outside_body (r : Request) (tag : StructTag) (s : string) : Prop :=
  (exists v, Spec.winning_marker tag = Some (path, v) /\ PathValue r v = s /\ s <> "")
  \/ (exists v, Spec.winning_marker tag = Some (query, v)
                /\ Values_Get (URL_Query r) (Spec.key_name v) = s /\ s <> "")
  \/ (exists v, Spec.winning_marker tag = Some (cookie, v) /\ Cookie r v = Some s
                /\ (Bind_omitEmpty tag = false \/ s <> "")).

(** * Properties *)

Section Properties.

Context {std : GoStd} {usr : UserMethods}.

Implicit Types (r : Request) (b : gmap string value) (tag : StructTag).
Implicit Types (field : StructField) (f g : gval) (vals : list gval).

(** ** Markers and precedence *)

Lemma winning_marker_cases tag :
  (Spec.winning_marker tag = Some (path, Get tag path) /\ Get tag path <> "")
  \/ (Spec.winning_marker tag = Some (query, Get tag query)
      /\ Get tag path = "" /\ Get tag query <> "")
  \/ (Spec.winning_marker tag = Some (body, Get tag body)
      /\ Get tag path = "" /\ Get tag query = "" /\ Get tag body <> "")
  \/ (Spec.winning_marker tag = Some (jjson, Get tag jjson)
      /\ Get tag path = "" /\ Get tag query = "" /\ Get tag body = ""
      /\ Get tag jjson <> "")
  \/ (Spec.winning_marker tag = Some (cookie, Get tag cookie)
      /\ Get tag path = "" /\ Get tag query = "" /\ Get tag body = ""
      /\ Get tag jjson = "" /\ Get tag cookie <> "")
  \/ (Spec.winning_marker tag = None
      /\ Get tag path = "" /\ Get tag query = "" /\ Get tag body = ""
      /\ Get tag jjson = "" /\ Get tag cookie = "").
Proof.
  unfold Spec.winning_marker, Spec.markers, Spec.first_nonempty.
  destruct (String.eqb_spec (Get tag path) ""); [|tauto].
  destruct (String.eqb_spec (Get tag query) ""); [|tauto].
  destruct (String.eqb_spec (Get tag body) ""); [|tauto].
  destruct (String.eqb_spec (Get tag jjson) ""); [|tauto].
  destruct (String.eqb_spec (Get tag cookie) ""); tauto.
Qed.

Lemma eqb_empty_false (s : string) : s <> "" -> String.eqb s "" = false.
Proof. intros H. now apply String.eqb_neq. Qed.

Lemma Get_only m v m' :
  Get [(m, v)] m' = if String.eqb m m' then v else "".
Proof. reflexivity. Qed.

Ltac only_winner_tags :=
  rewrite ?Get_only; unfold path, query, body, jjson, cookie;
  cbn [String.eqb Ascii.eqb Bool.eqb];
  fold path; fold query; fold body; fold jjson; fold cookie.

Lemma Bind_resolve_only_winner r b tag :
  Bind_resolve r b tag = Bind_resolve r b (Spec.only_winner tag).
Proof.
  unfold Bind_resolve, Spec.only_winner.
  destruct (winning_marker_cases tag)
    as [[-> Hp]|[(-> & Hp & Hq)|[(-> & Hp & Hq & Hb)|[(-> & Hp & Hq & Hb & Hj)
       |[(-> & Hp & Hq & Hb & Hj & Hc)|(-> & Hp & Hq & Hb & Hj & Hc)]]]]];
    only_winner_tags; unfold Bind_source;
    rewrite ?Hp, ?Hq, ?Hb, ?Hj, ?Hc; cbn [String.eqb negb];
    rewrite ?(eqb_empty_false _ Hp), ?(eqb_empty_false _ Hq),
      ?(eqb_empty_false _ Hb), ?(eqb_empty_false _ Hj),
      ?(eqb_empty_false _ Hc); reflexivity.
Qed.

Lemma getFieldInfo_field_winner field i info :
  getFieldInfo_field field i info =
  match Spec.winning_marker (Tag field) with
  | Some (m, v) => <[Name field := fieldInfo_of i field m v]> info
  | None => info
  end.
Proof.
  unfold getFieldInfo_field.
  destruct (winning_marker_cases (Tag field))
    as [[-> Hp]|[(-> & Hp & Hq)|[(-> & Hp & Hq & Hb)|[(-> & Hp & Hq & Hb & Hj)
       |[(-> & Hp & Hq & Hb & Hj & Hc)|(-> & Hp & Hq & Hb & Hj & Hc)]]]]];
    rewrite ?(eqb_empty_false _ Hp), ?(eqb_empty_false _ Hq),
      ?(eqb_empty_false _ Hb), ?(eqb_empty_false _ Hj),
      ?(eqb_empty_false _ Hc);
    rewrite ?Hp, ?Hq, ?Hb, ?Hj, ?Hc; cbn [String.eqb negb];
    rewrite ?(eqb_empty_false _ Hp), ?(eqb_empty_false _ Hq),
      ?(eqb_empty_false _ Hb), ?(eqb_empty_false _ Hj),
      ?(eqb_empty_false _ Hc); reflexivity.
Qed.

(** ** The look-up key of the query branch *)

Lemma Split_nonempty (s : string) (sep : ascii) : strings.Split s sep <> [].
Proof.
  destruct s as [|c s]; cbn; [discriminate|].
  destruct (Ascii.eqb c sep); [discriminate|].
  destruct (strings.Split s sep); discriminate.
Qed.

Lemma Index_comma_range (s : string) :
  strings.Index s "," = -1 \/ 0 <= strings.Index s ",".
Proof.
  induction s as [|c s IH]; [now left|].
  cbn [strings.Index String.prefix].
  destruct (ascii_dec "," c); [right; destruct s; cbn; lia|].
  destruct IH as [-> | IH]; [now left|right].
  destruct (Z.ltb_spec (strings.Index s ",") 0); lia.
Qed.

(** The parameter name that the [query] branch of [Bind] computes from a
    marker value is the key name of the specification: the segment before
    the first comma. *)
Lemma query_paramName_is_key_name (s : string) :
  (if negb (strings.Index s "," =? -1) then slice_to s (strings.Index s ",") else s)
  = Spec.key_name s.
Proof.
  unfold Spec.key_name, slice_to.
  induction s as [|c s IH]; [reflexivity|].
  cbn [strings.Index String.prefix strings.Split].
  destruct (ascii_dec "," c) as [<-|Hc].
  - cbn [Ascii.eqb Bool.eqb]. now destruct s.
  - assert (Hsep : Ascii.eqb c "," = false).
    { apply Ascii.eqb_neq. congruence. }
    rewrite Hsep.
    pose proof (Split_nonempty s ",") as Hne.
    destruct (strings.Split s ",") as [|p ps]; [congruence|].
    destruct (Index_comma_range s) as [Hi|Hi].
    + rewrite Hi in *. cbn in IH |- *. now rewrite IH.
    + destruct (Z.ltb_spec (strings.Index s ",") 0) as [Hlt|_]; [lia|].
      destruct (Z.eqb_spec (strings.Index s ",") (-1)) as [He|_]; [lia|].
      destruct (Z.eqb_spec (strings.Index s "," + 1) (-1)) as [He|_]; [lia|].
      cbn [negb] in *.
      replace (Z.to_nat (strings.Index s "," + 1))
        with (S (Z.to_nat (strings.Index s ","))) by lia.
      cbn [String.substring]. now rewrite IH.
Qed.

(** The key that each branch of the switch looks up for a marker value
    [v]: the query branch uses the key name, the other branches use [v] as
    it stands, modifiers included. *)
Lemma Bind_resolve_lookup_key r b (v : string) :
  v <> "" ->
  Bind_resolve r b [(path, v)]
  = Some (VString (PathValue r v), negb (String.eqb (PathValue r v) ""))
  /\ Bind_resolve r b [(query, v)]
     = Some (VString (Values_Get (URL_Query r) (Spec.key_name v)),
             negb (String.eqb (Values_Get (URL_Query r) (Spec.key_name v)) ""))
  /\ Bind_resolve r b [(body, v)]
     = match b !! v with Some x => Some (x, true) | None => Some (VNil, false) end
  /\ Bind_resolve r b [(jjson, v)]
     = match b !! v with Some x => Some (x, true) | None => Some (VNil, false) end
  /\ Bind_resolve r b [(cookie, v)]
     = match Cookie r v with Some c => Some (VString c, true) | None => Some (VNil, false) end.
Proof.
  intros Hv. unfold Bind_resolve. only_winner_tags. unfold Bind_source.
  cbn [String.eqb negb]. rewrite (eqb_empty_false _ Hv). cbn [negb].
  rewrite query_paramName_is_key_name. repeat split; reflexivity.
Qed.

Lemma winning_marker_value_nonempty tag m v :
  Spec.winning_marker tag = Some (m, v) -> v <> "".
Proof.
  intros Hw.
  destruct (winning_marker_cases tag)
    as [[Hw' Hp]|[(Hw' & Hp & Hq)|[(Hw' & Hp & Hq & Hb)|[(Hw' & Hp & Hq & Hb & Hj)
       |[(Hw' & Hp & Hq & Hb & Hj & Hc)|(Hw' & _)]]]]];
    rewrite Hw' in Hw; inversion Hw; subst; assumption.
Qed.

Lemma Bind_resolve_of_winner r b tag m v :
  Spec.winning_marker tag = Some (m, v) ->
  Bind_resolve r b tag = Bind_resolve r b [(m, v)].
Proof.
  intros Hw. rewrite Bind_resolve_only_winner. unfold Spec.only_winner. now rewrite Hw.
Qed.

Lemma Bind_resolve_no_marker r b tag :
  Spec.winning_marker tag = None -> Bind_resolve r b tag = None.
Proof.
  intros Hw. rewrite Bind_resolve_only_winner. unfold Spec.only_winner. now rewrite Hw.
Qed.

(** C3: a field that declares several recognized markers is resolved from
    the winning one alone, the first non-empty marker in the order path,
    query, body, json, cookie.  [Bind] reads the raw value and the existence
    flag from the source of that marker: the path wildcard, the query
    parameter, the key of the body map, the cookie; every marker before it
    is empty, the markers after it change nothing, and a field without a
    recognized marker is resolved from no source.  [getFieldInfo] records
    that source and that marker value. *)
Theorem resolve_by_precedence r b field :
  Bind_resolve r b (Tag field) = Bind_resolve r b (Spec.only_winner (Tag field))
  /\ match Spec.winning_marker (Tag field) with
     | None => Bind_resolve r b (Tag field) = None
     | Some (m, v) =>
         In m Spec.markers /\ v = Get (Tag field) m /\ v <> ""
         /\ (forall m0 m2 : list string,
               Spec.markers = (m0 ++ m :: m2)%list ->
               Forall (fun m' => Get (Tag field) m' = "") m0)
         /\ (m = path ->
             Bind_resolve r b (Tag field)
             = Some (VString (PathValue r v), negb (String.eqb (PathValue r v) "")))
         /\ (m = query ->
             Bind_resolve r b (Tag field)
             = Some (VString (Values_Get (URL_Query r) (Spec.key_name v)),
                     negb (String.eqb (Values_Get (URL_Query r) (Spec.key_name v)) "")))
         /\ (m = body \/ m = jjson ->
             Bind_resolve r b (Tag field)
             = match b !! v with Some x => Some (x, true) | None => Some (VNil, false) end)
         /\ (m = cookie ->
             Bind_resolve r b (Tag field)
             = match Cookie r v with
               | Some c => Some (VString c, true)
               | None => Some (VNil, false)
               end)
     end
  /\ forall i info,
       getFieldInfo_field field i info =
       match Spec.winning_marker (Tag field) with
       | Some (m, v) => <[Name field := fieldInfo_of i field m v]> info
       | None => info
       end.
Proof.
  split; [apply Bind_resolve_only_winner|].
  split; [|intros i info; apply getFieldInfo_field_winner].
  rewrite (Bind_resolve_only_winner r b (Tag field)). unfold Spec.only_winner.
  destruct (winning_marker_cases (Tag field))
    as [[-> Hp]|[(-> & Hp & Hq)|[(-> & Hp & Hq & Hb)|[(-> & Hp & Hq & Hb & Hj)
       |[(-> & Hp & Hq & Hb & Hj & Hc)|(-> & Hp & Hq & Hb & Hj & Hc)]]]]].
  6: reflexivity.
  all: match goal with
       | |- In ?m _ /\ ?v = _ /\ _ =>
           destruct (Bind_resolve_lookup_key r b v ltac:(assumption))
             as (Kp & Kq & Kb & Kj & Kc)
       end.
  all: split; [cbn; tauto|]; split; [reflexivity|]; split; [assumption|].
  all: split;
    [ intros m0 m2 Hm; unfold Spec.markers in Hm;
      repeat (destruct m0 as [|? m0];
              [ cbn in Hm; injection Hm as Hm;
                try discriminate; repeat constructor; subst; assumption
              | cbn in Hm; injection Hm as <- Hm ]);
      destruct m0; discriminate Hm
    | ].
  all: repeat split; try discriminate; try (intros [?|?]; discriminate);
    intros _; assumption.
Qed.

Lemma append_empty_r (s : string) : s ++ "" = s.
Proof. induction s as [|c s IH]; [reflexivity|]. change (String c (s ++ "") = String c s). now f_equal. Qed.

Lemma markers_distinct :
  path <> query /\ path <> body /\ path <> jjson /\ path <> cookie
  /\ query <> body /\ query <> jjson /\ query <> cookie
  /\ body <> jjson /\ body <> cookie /\ jjson <> cookie.
Proof. repeat split; discriminate. Qed.

(** Where the two computations of omitEmpty agree.  The flag that
    [getFieldInfo] records is the test for the text "omitempty" in the value
    of the winning marker, whatever the other markers hold; line 157 of
    [Bind] computes the same flag when the winning marker is the only
    marker declared on the field. *)
Lemma omitEmpty_substring_of_winner field m v :
  Spec.winning_marker (Tag field) = Some (m, v) ->
  (forall i info,
     OmitEmpty <$> (getFieldInfo_field field i info !! Name field)
     = Some (strings.Contains v "omitempty"))
  /\ ((forall m', In m' Spec.markers -> m' <> m -> Get (Tag field) m' = "") ->
      Bind_omitEmpty (Tag field) = strings.Contains v "omitempty").
Proof.
  intros Hw. split.
  - intros i info. rewrite getFieldInfo_field_winner, Hw.
    now rewrite lookup_insert_eq.
  - intros Hothers. unfold Bind_omitEmpty.
    assert (Hin : forall m', In m' Spec.markers -> m' = m \/ Get (Tag field) m' = "").
    { intros m' Hm'. destruct (String.eqb_spec m' m); [now left|right; auto]. }
    destruct markers_distinct as (? & ? & ? & ? & ? & ? & ? & ? & ? & ?).
    destruct (winning_marker_cases (Tag field))
      as [[Hw' Hp]|[(Hw' & Hp & Hq)|[(Hw' & Hp & Hq & Hb)|[(Hw' & Hp & Hq & Hb & Hj)
         |[(Hw' & Hp & Hq & Hb & Hj & Hc)|(Hw' & _)]]]]];
      rewrite Hw' in Hw; inversion Hw; subst m v; clear Hw.
    + rewrite (Hothers query), (Hothers body), (Hothers jjson), (Hothers cookie);
        cbn; auto 10; try congruence.
      now rewrite append_empty_r.
    + rewrite Hp, (Hothers body), (Hothers jjson), (Hothers cookie);
        cbn; auto 10; try congruence.
      now rewrite append_empty_r.
    + rewrite Hp, Hq, (Hothers jjson), (Hothers cookie);
        cbn; auto 10; try congruence.
      now rewrite append_empty_r.
    + rewrite Hp, Hq, Hb, (Hothers cookie); cbn; auto 10; try congruence.
      now rewrite append_empty_r.
    + rewrite Hp, Hq, Hb, Hj. reflexivity.
Qed.

(** ** The loop over the fields *)

Lemma Bind_field_set_Body r b field f body' :
  Bind_field (set_Body r body') b field f = Bind_field r b field f.
Proof. reflexivity. Qed.

Lemma Bind_fields_set_Body r b fs vals body' :
  Bind_fields (set_Body r body') b fs vals = Bind_fields r b fs vals.
Proof.
  revert vals. induction fs as [|field fs IH]; intros [|f vals]; try reflexivity.
  cbn [Bind_fields]. rewrite Bind_field_set_Body, IH. reflexivity.
Qed.

(** The loop stops at the first field whose step fails: the fields before
    it hold what their steps assigned, the fields after it are untouched. *)
Lemma Bind_fields_first_failure r b fs1 field fs2 vals1 f vals2 vals1' g e :
  length fs1 = length vals1 ->
  Bind_fields r b fs1 vals1 = (vals1', None) ->
  Bind_field r b field f = (g, Some e) ->
  Bind_fields r b (fs1 ++ field :: fs2)%list (vals1 ++ f :: vals2)%list
  = ((vals1' ++ g :: vals2)%list, Some e).
Proof.
  revert vals1 vals1'.
  induction fs1 as [|field1 fs1 IH]; intros [|f1 vals1] vals1' Hlen Hpre Hfail;
    try discriminate.
  - cbn in Hpre. injection Hpre as <-. cbn [app Bind_fields]. now rewrite Hfail.
  - cbn [app Bind_fields] in *.
    destruct (Bind_field r b field1 f1) as [g1 [e1|]]; [discriminate|].
    destruct (Bind_fields r b fs1 vals1) as [vals1'' oe] eqn:Hrest.
    injection Hpre as <- ->.
    rewrite (IH vals1 vals1''); auto.
Qed.

(** A field whose step leaves it alone holds its old content after the
    loop, wherever the loop stops. *)
Lemma Bind_fields_lookup_unchanged r b fs vals (k : nat) field f :
  fs !! k = Some field -> vals !! k = Some f ->
  fst (Bind_field r b field f) = f ->
  fst (Bind_fields r b fs vals) !! k = Some f.
Proof.
  revert vals k.
  induction fs as [|field1 fs IH]; intros [|f1 vals] k Hfs Hvals Hsame;
    try discriminate.
  cbn [Bind_fields].
  destruct (Bind_field r b field1 f1) as [g1 oe1] eqn:Hstep.
  destruct k as [|k]; cbn in Hfs, Hvals.
  - injection Hfs as ->. injection Hvals as ->.
    rewrite Hstep in Hsame. cbn in Hsame. subst g1.
    destruct oe1; [reflexivity|].
    destruct (Bind_fields r b fs vals); reflexivity.
  - destruct oe1; [exact Hvals|].
    specialize (IH vals k Hfs Hvals Hsame).
    destruct (Bind_fields r b fs vals); exact IH.
Qed.

(** A step of the loop fails only with an error that carries the name of
    its field. *)
Lemma Bind_field_error_names_field r b field f g e :
  Bind_field r b field f = (g, Some e) ->
  exists e0,
    e = wrapError ("error setting field " ++ Name field ++ ": ") e0
    \/ e = wrapError ("error binding nested field " ++ Name field ++ ": ") e0.
Proof.
  unfold Bind_field.
  destruct (Bind_source _ _ _ _ _ _ _) as [[v ex]|]; [|discriminate].
  destruct (negb ex || _); [discriminate|].
  destruct (if struct_or_ptr_to_struct _ then _ else _) as [nestedMap|].
  - destruct (BindStruct _ _ _) as [g' [e0|]]; [|discriminate].
    intros [= _ <-]. eauto.
  - destruct (setField _ _ _) as [g' [e0|]]; [|discriminate].
    intros [= _ <-]. eauto.
Qed.

(** A field whose winning marker is [body] or [json] is left alone when the
    intermediate body map is empty. *)
Lemma Bind_field_empty_body r field f v :
  Spec.winning_marker (Tag field) = Some (body, v)
  \/ Spec.winning_marker (Tag field) = Some (jjson, v) ->
  Bind_field r ∅ field f = (f, None).
Proof.
  intros Hw. unfold Bind_field, Bind_source.
  destruct (winning_marker_cases (Tag field))
    as [[Hw' Hp]|[(Hw' & Hp & Hq)|[(Hw' & Hp & Hq & Hb)|[(Hw' & Hp & Hq & Hb & Hj)
       |[(Hw' & Hp & Hq & Hb & Hj & Hc)|(Hw' & _)]]]]];
    rewrite Hw' in Hw; destruct Hw as [Hw|Hw]; try discriminate Hw.
  - rewrite Hp, Hq. cbn [String.eqb negb].
    rewrite (eqb_empty_false _ Hb). cbn [negb].
    now rewrite lookup_empty.
  - rewrite Hp, Hq, Hb. cbn [String.eqb negb].
    rewrite (eqb_empty_false _ Hj). cbn [negb].
    now rewrite lookup_empty.
Qed.

(** The step of a field in terms of [Bind_resolve]. *)
Lemma Bind_field_by_resolve r b field f :
  Bind_field r b field f =
  match Bind_resolve r b (Tag field) with
  | None => (f, None)
  | Some (v, exists_) =>
      if negb exists_ || (Bind_omitEmpty (Tag field) && isEmptyValue v) then (f, None)
      else
        match (if struct_or_ptr_to_struct (Type_ field)
               then match v with VMap nestedMap => Some nestedMap | _ => None end
               else None) with
        | Some nestedMap =>
            let '(g, oe) := BindStruct (Type_ field) (init_nil (Type_ field) f) nestedMap in
            (g, match oe with
                | Some er => Some (wrapError ("error binding nested field " ++ Name field ++ ": ") er)
                | None => None
                end)
        | None =>
            let '(g, oe) := setField (Type_ field) (init_nil (Type_ field) f) v in
            (g, match oe with
                | Some er => Some (wrapError ("error setting field " ++ Name field ++ ": ") er)
                | None => None
                end)
        end
  end.
Proof. reflexivity. Qed.

(** A field whose winning marker is [path], [query] or [cookie] is bound
    the same way whatever the intermediate body map holds. *)
Lemma Bind_field_ignores_body_map r b b' field f m v :
  Spec.winning_marker (Tag field) = Some (m, v) ->
  m = path \/ m = query \/ m = cookie ->
  Bind_field r b field f = Bind_field r b' field f.
Proof.
  intros Hw Hm. rewrite !Bind_field_by_resolve.
  replace (Bind_resolve r b' (Tag field)) with (Bind_resolve r b (Tag field));
    [reflexivity|].
  rewrite (Bind_resolve_only_winner r b), (Bind_resolve_only_winner r b').
  unfold Spec.only_winner. rewrite Hw.
  assert (Hv : v <> "").
  { destruct (winning_marker_cases (Tag field))
      as [[Hw' Hp]|[(Hw' & Hp & Hq)|[(Hw' & Hp & Hq & Hb)|[(Hw' & Hp & Hq & Hb & Hj)
         |[(Hw' & Hp & Hq & Hb & Hj & Hc)|(Hw' & _)]]]]];
      rewrite Hw' in Hw; inversion Hw; subst; assumption. }
  unfold Bind_resolve.
  destruct Hm as [-> | [-> | ->]]; only_winner_tags; unfold Bind_source;
    cbn [String.eqb negb]; rewrite ?(eqb_empty_false _ Hv); reflexivity.
Qed.

Lemma Bind_body_no_EvValidate r :
  List.filter is_EvValidate (snd (fst (Bind_body r))) = [].
Proof.
  unfold Bind_body. destruct (Body r) as [rd|]; [|reflexivity].
  destruct (ContentLength r >? 0); [|reflexivity].
  cbn. destruct (read_error rd); reflexivity.
Qed.

(** ** The request body *)

Lemma Bind_body_readable r rd :
  Body r = Some rd -> read_error rd = None -> ContentLength r > 0 ->
  Bind_body r =
  (set_Body r (Some (NewBuffer (unread rd))),
   [EvReadBody; EvSetBody (unread rd)],
   match parseBody (set_Body r (Some (NewBuffer (unread rd)))) with
   | err _ => ok ∅
   | ok b => ok b
   end).
Proof.
  intros HBody Hread Hlen. unfold Bind_body, ReadAll. rewrite HBody, Hread.
  destruct (Z.gtb_spec (ContentLength r) 0) as [_|Hle]; [reflexivity|lia].
Qed.

Lemma Bind_body_absent r :
  Body r = None \/ ContentLength r <= 0 -> Bind_body r = (r, [], ok ∅).
Proof.
  intros H. unfold Bind_body. destruct (Body r) as [rd|]; [|reflexivity].
  destruct H as [H|H]; [discriminate|].
  destruct (Z.gtb_spec (ContentLength r) 0) as [Hgt|_]; [lia|reflexivity].
Qed.

Lemma set_Body_same r : set_Body r (Body r) = r.
Proof. now destruct r. Qed.

Lemma Bind_request_is_Bind_body r i fieldCache :
  Bind_request (fst (Bind r i fieldCache)) = fst (fst (Bind_body r)).
Proof.
  unfold Bind. destruct (Bind_body r) as [[r' evs] [b|e]]; [|reflexivity].
  destruct (Bind_fields r' b _ _) as [vals [e|]]; [reflexivity|].
  destruct (Bind_validate i vals). reflexivity.
Qed.

(** What [Bind] returns and leaves in the record once the intermediate body
    map [b] is known. *)
Lemma Bind_with_map r i fieldCache r' evs b :
  Bind_body r = (r', evs, ok b) ->
  Bind_error (fst (Bind r i fieldCache))
  = match snd (Bind_fields r b (struct_fields (Target_type i)) (Target_fields i)) with
    | Some e => Some e
    | None =>
        fst (Bind_validate i
               (fst (Bind_fields r b (struct_fields (Target_type i)) (Target_fields i))))
    end
  /\ Bind_record (fst (Bind r i fieldCache))
     = fst (Bind_fields r b (struct_fields (Target_type i)) (Target_fields i)).
Proof.
  intros Hb.
  assert (Hr : forall fs vals, Bind_fields r' b fs vals = Bind_fields r b fs vals).
  { intros fs vals. pose proof (f_equal (fun x => fst (fst x)) Hb) as Hr'.
    cbn in Hr'. subst r'. unfold Bind_body.
    destruct (Body r) as [rd|]; [|reflexivity].
    destruct (ContentLength r >? 0); [|reflexivity].
    cbn. destruct (read_error rd); cbn; apply Bind_fields_set_Body. }
  unfold Bind. rewrite Hb, Hr.
  destruct (Bind_fields r b _ _) as [vals [e|]]; [now split|].
  cbn. destruct (Bind_validate i vals). now split.
Qed.

(** A field for which the path, the query string or a cookie supplies a
    string is handed to [setField] with that string, whatever the
    intermediate body map holds. *)
Lemma Bind_field_outside_body r b field f (s : string) :
  supplied_outside_body r (Tag field) s ->
  Bind_field r b field f
  = (fst (setField (Type_ field) (init_nil (Type_ field) f) (VString s)),
     wrapError ("error setting field " ++ Name field ++ ": ")
       <$> snd (setField (Type_ field) (init_nil (Type_ field) f) (VString s))).
Proof.
  intros Hs. rewrite Bind_field_by_resolve.
  assert (Hlen : s <> "" -> (String.length s =? 0)%nat = false).
  { intros Hne. destruct s; [contradiction|reflexivity]. }
  assert (Hres : exists ex,
             Bind_resolve r b (Tag field) = Some (VString s, ex)
             /\ negb ex || (Bind_omitEmpty (Tag field) && isEmptyValue (VString s)) = false).
  { destruct Hs as [(v & Hw & Hv & Hne)|[(v & Hw & Hv & Hne)|(v & Hw & Hv & Hne)]];
      rewrite (Bind_resolve_of_winner r b _ _ _ Hw);
      destruct (Bind_resolve_lookup_key r b v (winning_marker_value_nonempty _ _ _ Hw))
        as (Kp & Kq & _ & _ & Kc).
    - rewrite Kp, Hv. eexists. split; [reflexivity|].
      cbn [isEmptyValue]. rewrite (eqb_empty_false _ Hne), (Hlen Hne).
      now rewrite andb_false_r.
    - rewrite Kq, Hv. eexists. split; [reflexivity|].
      cbn [isEmptyValue]. rewrite (eqb_empty_false _ Hne), (Hlen Hne).
      now rewrite andb_false_r.
    - rewrite Kc, Hv. eexists. split; [reflexivity|].
      cbn [isEmptyValue negb orb].
      destruct Hne as [->|Hne]; [reflexivity|].
      rewrite (Hlen Hne). now rewrite andb_false_r. }
  destruct Hres as (ex & -> & ->).
  assert (Hmap : (if struct_or_ptr_to_struct (Type_ field)
                  then match VString s with VMap nestedMap => Some nestedMap | _ => None end
                  else None) = None).
  { now destruct (struct_or_ptr_to_struct (Type_ field)). }
  rewrite Hmap.
  destruct (setField (Type_ field) (init_nil (Type_ field) f) (VString s)) as [g [e|]];
    reflexivity.
Qed.

(** The loop reaches a field when no field before it fails: the field then
    holds what its step gives it, and an error of its step is the error of
    the loop. *)
Lemma Bind_fields_lookup_reached r b (fs : list StructField) vals (k : nat) field f :
  fs !! k = Some field -> vals !! k = Some f ->
  (forall (j : nat) fj gj, (j < k)%nat -> fs !! j = Some fj -> vals !! j = Some gj ->
     snd (Bind_field r b fj gj) = None) ->
  fst (Bind_fields r b fs vals) !! k = Some (fst (Bind_field r b field f))
  /\ forall e, snd (Bind_field r b field f) = Some e ->
               snd (Bind_fields r b fs vals) = Some e.
Proof.
  revert vals k.
  induction fs as [|field1 fs IH]; intros [|f1 vals] k Hfs Hvals Hbefore;
    try discriminate.
  cbn [Bind_fields].
  destruct k as [|k]; cbn in Hfs, Hvals.
  - injection Hfs as ->. injection Hvals as ->.
    destruct (Bind_field r b field f) as [g [e|]]; cbn [fst snd].
    + split; [reflexivity|]. now intros e' [= <-].
    + destruct (Bind_fields r b fs vals). split; [reflexivity|]. discriminate.
  - pose proof (Hbefore 0%nat field1 f1 ltac:(lia) eq_refl eq_refl) as H1.
    destruct (Bind_field r b field1 f1) as [g1 oe1]. cbn in H1. subst oe1.
    destruct (IH vals k Hfs Hvals) as [IH1 IH2].
    { intros j fj gj Hj. apply (Hbefore (S j)). lia. }
    destruct (Bind_fields r b fs vals) as [vals' oe']. cbn [fst snd] in *.
    split; [exact IH1|exact IH2].
Qed.

(** The loop ends without an error when no step fails. *)
Lemma Bind_fields_no_failure r b (fs : list StructField) vals :
  (forall (j : nat) fj gj, fs !! j = Some fj -> vals !! j = Some gj ->
     snd (Bind_field r b fj gj) = None) ->
  snd (Bind_fields r b fs vals) = None.
Proof.
  revert vals. induction fs as [|field1 fs IH]; intros [|f1 vals] Hall;
    try reflexivity.
  cbn [Bind_fields].
  pose proof (Hall 0%nat field1 f1 eq_refl eq_refl) as H1.
  destruct (Bind_field r b field1 f1) as [g1 oe1]. cbn in H1. subst oe1.
  specialize (IH vals (fun j => Hall (S j))).
  destruct (Bind_fields r b fs vals) as [vals' oe']. exact IH.
Qed.

(** C4: when the body is present and readable but its JSON or form decoding
    fails, or its content type is not one of the two recognized ones,
    [Bind] goes on with the empty intermediate body map and the decoding
    failure is not among its errors: it returns the error and leaves the
    record that it returns and leaves for the same request without a body,
    and when no step of the loop fails its result is what [Validate] says
    (no error without one).  The fields of the other sources are bound: a
    field for which the path, the query string or a cookie supplies a
    string is handed to [setField] with that string, as it is with any
    other body map, and when the loop reaches it the record holds the
    outcome of that [setField], whose error, if any, [Bind] returns under
    the name of the field. *)
Theorem Bind_survives_body_failure r i fieldCache rd :
  Body r = Some rd -> read_error rd = None -> ContentLength r > 0 ->
  (parseContentType (Values_Get (Header r) "Content-Type") = "application/json"
   /\ exists e, json_Decode (unread rd) = err e)
  \/ (parseContentType (Values_Get (Header r) "Content-Type")
      = "application/x-www-form-urlencoded"
      /\ exists e, ParseForm (set_Body r (Some (NewBuffer (unread rd)))) = err e)
  \/ (parseContentType (Values_Get (Header r) "Content-Type") <> "application/json"
      /\ parseContentType (Values_Get (Header r) "Content-Type")
         <> "application/x-www-form-urlencoded") ->
  snd (Bind_body r) = ok ∅
  /\ Bind_error (fst (Bind r i fieldCache))
     = Bind_error (fst (Bind (set_Body r None) i fieldCache))
  /\ Bind_record (fst (Bind r i fieldCache))
     = Bind_record (fst (Bind (set_Body r None) i fieldCache))
  /\ (forall field f m v b,
        Spec.winning_marker (Tag field) = Some (m, v) ->
        m = path \/ m = query \/ m = cookie ->
        Bind_field r ∅ field f = Bind_field r b field f)
  /\ (forall field f (s : string),
        supplied_outside_body r (Tag field) s ->
        Bind_field r ∅ field f
        = (fst (setField (Type_ field) (init_nil (Type_ field) f) (VString s)),
           wrapError ("error setting field " ++ Name field ++ ": ")
             <$> snd (setField (Type_ field) (init_nil (Type_ field) f) (VString s))))
  /\ (forall (k : nat) field f (s : string),
        struct_fields (Target_type i) !! k = Some field ->
        Target_fields i !! k = Some f ->
        supplied_outside_body r (Tag field) s ->
        (forall (j : nat) fj gj, (j < k)%nat ->
           struct_fields (Target_type i) !! j = Some fj ->
           Target_fields i !! j = Some gj ->
           snd (Bind_field r ∅ fj gj) = None) ->
        Bind_record (fst (Bind r i fieldCache)) !! k
        = Some (fst (setField (Type_ field) (init_nil (Type_ field) f) (VString s)))
        /\ forall e,
             snd (setField (Type_ field) (init_nil (Type_ field) f) (VString s)) = Some e ->
             Bind_error (fst (Bind r i fieldCache))
             = Some (wrapError ("error setting field " ++ Name field ++ ": ") e))
  /\ ((forall (j : nat) fj gj,
         struct_fields (Target_type i) !! j = Some fj ->
         Target_fields i !! j = Some gj ->
         snd (Bind_field r ∅ fj gj) = None) ->
      Bind_error (fst (Bind r i fieldCache))
      = fst (Bind_validate i (Bind_record (fst (Bind r i fieldCache))))).
Proof.
  intros HBody Hread Hlen Hfail.
  cut ((snd (Bind_body r) = ok ∅
        /\ Bind_error (fst (Bind r i fieldCache))
           = Bind_error (fst (Bind (set_Body r None) i fieldCache))
        /\ Bind_record (fst (Bind r i fieldCache))
           = Bind_record (fst (Bind (set_Body r None) i fieldCache)))).
  { intros (H1 & H2 & H3).
    assert (Hmap : exists r' evs, Bind_body r = (r', evs, ok ∅)).
    { destruct (Bind_body r) as [[r' evs] rb]. cbn in H1. subst rb. eauto. }
    destruct Hmap as (r' & evs & Hmap).
    destruct (Bind_with_map r i fieldCache r' evs ∅ Hmap) as [He Hv].
    split; [exact H1|]. split; [exact H2|]. split; [exact H3|].
    split.
    { intros field f m v b Hw Hm.
      now apply (Bind_field_ignores_body_map r ∅ b field f m v). }
    split.
    { intros field f s Hs. now apply Bind_field_outside_body. }
    split.
    { intros k field f s Hfs Hvals Hs Hbefore.
      destruct (Bind_fields_lookup_reached r ∅ _ _ k field f Hfs Hvals Hbefore)
        as [Hk Hek].
      rewrite (Bind_field_outside_body r ∅ field f s Hs) in Hk, Hek.
      cbn [fst snd] in Hk, Hek.
      split; [now rewrite Hv|].
      intros e Hset. rewrite Hset in Hek. cbn in Hek.
      now rewrite He, (Hek _ eq_refl). }
    intros Hall. rewrite He, Hv.
    now rewrite (Bind_fields_no_failure r ∅ _ _ Hall). }
  pose proof (Bind_body_readable r rd HBody Hread Hlen) as Hb.
  assert (Hempty : match parseBody (set_Body r (Some (NewBuffer (unread rd)))) with
                   | err _ => ok ∅
                   | ok b => ok b
                   end = ok ∅).
  { unfold parseBody. cbn [Header set_Body Body_bytes Body unread NewBuffer].
    destruct Hfail as [[-> [e ->]]|[[-> [e He]]|[Hj Hf]]].
    - reflexivity.
    - cbn [String.eqb Ascii.eqb Bool.eqb]. now rewrite He.
    - now rewrite (proj2 (String.eqb_neq _ _) Hj), (proj2 (String.eqb_neq _ _) Hf). }
  rewrite Hempty in Hb.
  assert (Hb0 : Bind_body (set_Body r None) = (set_Body r None, [], ok ∅)).
  { apply Bind_body_absent. now left. }
  destruct (Bind_with_map r i fieldCache _ _ _ Hb) as [He Hv].
  destruct (Bind_with_map (set_Body r None) i fieldCache _ _ _ Hb0) as [He0 Hv0].
  rewrite Bind_fields_set_Body in He0, Hv0.
  rewrite Hb, He, Hv, He0, Hv0. auto.
Qed.

(** C5: after [Bind] on a request whose body is readable and of positive
    declared length, the request is what it was before the call: its body
    stream is a fresh reader over exactly the bytes the original stream
    held, so reading it yields those bytes once, and a [Bind] that follows,
    into any target, proceeds as it would have on the original request. *)
Theorem Bind_replays_body r i fieldCache rd :
  Body r = Some rd -> read_error rd = None -> ContentLength r > 0 ->
  Body (Bind_request (fst (Bind r i fieldCache))) = Some (NewBuffer (unread rd))
  /\ ReadAll (NewBuffer (unread rd)) = (unread rd, None, NewBuffer [])
  /\ Bind_request (fst (Bind r i fieldCache)) = r
  /\ forall i2 fieldCache2,
       Bind (Bind_request (fst (Bind r i fieldCache))) i2 fieldCache2
       = Bind r i2 fieldCache2.
Proof.
  intros HBody Hread Hlen.
  rewrite Bind_request_is_Bind_body, (Bind_body_readable r rd HBody Hread Hlen).
  cbn [fst].
  assert (Hsame : set_Body r (Some (NewBuffer (unread rd))) = r).
  { rewrite <- (set_Body_same r) at 2. rewrite HBody. do 2 f_equal.
    destruct rd as [bs oe]. cbn in *. now subst oe. }
  rewrite Hsame. repeat split; auto. now rewrite HBody; destruct rd; cbn in *; subst.
Qed.

(** C10: without a body stream, or with a declared content length that is
    zero or negative (-1, the unknown length, included), [Bind] leaves the
    request as it is, neither reading nor replacing the stream, works with
    the empty intermediate body map, and leaves every field unchanged whose
    winning marker is [body] or [json]. *)
Theorem Bind_without_body r i fieldCache :
  Body r = None \/ ContentLength r <= 0 ->
  Bind_body r = (r, [], ok ∅)
  /\ Bind_request (fst (Bind r i fieldCache)) = r
  /\ List.filter (fun ev => negb (is_EvValidate ev))
       (Bind_events (fst (Bind r i fieldCache))) = []
  /\ forall (k : nat) field f v,
       struct_fields (Target_type i) !! k = Some field ->
       Target_fields i !! k = Some f ->
       Spec.winning_marker (Tag field) = Some (body, v)
       \/ Spec.winning_marker (Tag field) = Some (jjson, v) ->
       Bind_record (fst (Bind r i fieldCache)) !! k = Some f.
Proof.
  intros H. pose proof (Bind_body_absent r H) as Hb.
  split; [exact Hb|]. split; [now rewrite Bind_request_is_Bind_body, Hb|]. split.
  - unfold Bind. rewrite Hb.
    destruct (Bind_fields r ∅ _ _) as [vals [e|]]; [reflexivity|].
    unfold Bind_validate. destruct (Target_Validate i); reflexivity.
  - intros k field f v Hfield Hf Hw.
    rewrite (proj2 (Bind_with_map r i fieldCache _ _ _ Hb)).
    apply (Bind_fields_lookup_unchanged r ∅ _ _ k field f Hfield Hf).
    now rewrite (Bind_field_empty_body r field f v Hw).
Qed.

(** ** Errors and validation *)

(** C6: when the step of some field fails, the fields before it having
    been bound, [Bind] returns that step's error, which wraps the cause
    under the declared name of the field; the fields after it keep the
    contents they had, the fields before it keep the contents the loop
    gave them, and [Validate] is not invoked. *)
Theorem Bind_stops_at_first_failure r i fieldCache r' evs b
    fs1 field fs2 vals1 f vals2 vals1' g e :
  Bind_body r = (r', evs, ok b) ->
  struct_fields (Target_type i) = (fs1 ++ field :: fs2)%list ->
  Target_fields i = (vals1 ++ f :: vals2)%list ->
  length fs1 = length vals1 ->
  Bind_fields r b fs1 vals1 = (vals1', None) ->
  Bind_field r b field f = (g, Some e) ->
  Bind_error (fst (Bind r i fieldCache)) = Some e
  /\ (exists e0,
        e = wrapError ("error setting field " ++ Name field ++ ": ") e0
        \/ e = wrapError ("error binding nested field " ++ Name field ++ ": ") e0)
  /\ Bind_record (fst (Bind r i fieldCache)) = (vals1' ++ g :: vals2)%list
  /\ List.filter is_EvValidate (Bind_events (fst (Bind r i fieldCache))) = [].
Proof.
  intros Hb Hfs Hvals Hlen Hpre Hfail.
  pose proof (Bind_fields_first_failure r b fs1 field fs2 vals1 f vals2 vals1' g e
                Hlen Hpre Hfail) as Hloop.
  destruct (Bind_with_map r i fieldCache _ _ _ Hb) as [He Hv].
  rewrite Hfs, Hvals, Hloop in He, Hv. cbn in He, Hv.
  split; [exact He|]. split; [exact (Bind_field_error_names_field _ _ _ _ _ _ Hfail)|].
  split; [exact Hv|].
  pose proof (Bind_body_no_EvValidate r) as Hevs. rewrite Hb in Hevs. cbn in Hevs.
  assert (Hr : Bind_fields r' b (struct_fields (Target_type i)) (Target_fields i)
               = ((vals1' ++ g :: vals2)%list, Some e)).
  { rewrite <- Hloop, Hfs, Hvals.
    pose proof (f_equal (fun x => fst (fst x)) Hb) as Hr'. cbn in Hr'. subst r'.
    unfold Bind_body. destruct (Body r) as [rd|]; [|reflexivity].
    destruct (ContentLength r >? 0); [|reflexivity].
    cbn. destruct (read_error rd); cbn; apply Bind_fields_set_Body. }
  unfold Bind. rewrite Hb, Hr. exact Hevs.
Qed.

(** C7: when every field is bound without error and the target has a
    [Validate] method, [Bind] invokes it once, after the loop and on the
    record as the loop left it; the error it returns, if any, comes back
    wrapped, and the record keeps every bound field either way. *)
Theorem Bind_validates_once r i fieldCache r' evs b vals' validate :
  Bind_body r = (r', evs, ok b) ->
  Bind_fields r b (struct_fields (Target_type i)) (Target_fields i) = (vals', None) ->
  Target_Validate i = Some validate ->
  Bind_events (fst (Bind r i fieldCache)) = (evs ++ [EvValidate (GStruct vals')])%list
  /\ List.filter is_EvValidate (Bind_events (fst (Bind r i fieldCache)))
     = [EvValidate (GStruct vals')]
  /\ Bind_record (fst (Bind r i fieldCache)) = vals'
  /\ Bind_error (fst (Bind r i fieldCache))
     = match validate vals' with
       | Some e => Some (wrapError "validation failed: " e)
       | None => None
       end.
Proof.
  intros Hb Hloop Hval.
  destruct (Bind_with_map r i fieldCache _ _ _ Hb) as [He Hv].
  rewrite Hloop in He, Hv. cbn in He, Hv.
  assert (Hr : Bind_fields r' b (struct_fields (Target_type i)) (Target_fields i)
               = (vals', None)).
  { rewrite <- Hloop.
    pose proof (f_equal (fun x => fst (fst x)) Hb) as Hr'. cbn in Hr'. subst r'.
    unfold Bind_body. destruct (Body r) as [rd|]; [|reflexivity].
    destruct (ContentLength r >? 0); [|reflexivity].
    cbn. destruct (read_error rd); cbn; apply Bind_fields_set_Body. }
  assert (Hevs : Bind_events (fst (Bind r i fieldCache))
                 = (evs ++ [EvValidate (GStruct vals')])%list).
  { unfold Bind. rewrite Hb, Hr. unfold Bind_validate. now rewrite Hval. }
  split; [exact Hevs|]. split.
  - rewrite Hevs, List.filter_app.
    pose proof (Bind_body_no_EvValidate r) as Hno. rewrite Hb in Hno. cbn in Hno.
    now rewrite Hno.
  - split; [exact Hv|]. rewrite He. unfold Bind_validate. now rewrite Hval.
Qed.

(** C8, amended: a fixed-size array field (of a type without
    [UnmarshalText]) refuses every raw value other than nil, of whatever
    shape, with the error "arrays are not supported, use slices instead";
    the nil raw value is a no-op without error.  The field keeps its
    content either way. *)
Theorem setField_array_rejected (n : nat) (e : typ) (field : gval) (v : value) :
  setField (TArray n e) field v
  = match v with
    | VNil => (field, None)
    | _ => (field, Some (errorString "arrays are not supported, use slices instead"))
    end.
Proof. destruct v; reflexivity. Qed.

(** ** The package state *)

(** C9: [Bind] hands the field metadata cache back as it received it, and
    what it returns, leaves in the record, leaves in the request and does
    on the way is the same for every content of the cache. *)
Theorem Bind_ignores_fieldCache r i (fieldCache fieldCache' : Cache) :
  snd (Bind r i fieldCache) = fieldCache
  /\ fst (Bind r i fieldCache) = fst (Bind r i fieldCache').
Proof.
  unfold Bind. destruct (Bind_body r) as [[r' evs] [b|e]]; [|now split].
  destruct (Bind_fields r' b _ _) as [vals [e|]]; [now split|].
  destruct (Bind_validate i vals). now split.
Qed.

(** [typ_eqb] holds of a type and itself. *)
Fixpoint typ_eqb_refl (t : typ) : typ_eqb t t = true.
Proof.
  destruct t as [|k|k|k| |e|n e|fs|e|k|rc m u]; cbn [typ_eqb];
    try reflexivity;
    try (apply bool_decide_eq_true_2; reflexivity);
    try apply typ_eqb_refl.
  - now rewrite Nat.eqb_refl, typ_eqb_refl.
  - induction fs as [|fd fs IH]; [reflexivity|].
    rewrite String.eqb_refl, (bool_decide_eq_true_2 _ eq_refl),
      (typ_eqb_refl (Type_ fd)), IH.
    reflexivity.
  - now rewrite (bool_decide_eq_true_2 _ eq_refl), Nat.eqb_refl, typ_eqb_refl.
Qed.

(** [getFieldInfo] builds the entry of an unseen type and stores it; asked
    again, it returns the stored entry and leaves the cache alone. *)
Lemma getFieldInfo_builds_once (t : typ) (fieldCache : Cache) :
  Cache_lookup fieldCache t = None ->
  let info := getFieldInfo_fields (struct_fields t) 0 ∅ in
  getFieldInfo t fieldCache = (info, Cache_store fieldCache t info)
  /\ getFieldInfo t (Cache_store fieldCache t info)
     = (info, Cache_store fieldCache t info).
Proof.
  intros Hmiss. cbn zeta. unfold getFieldInfo. rewrite Hmiss. split; [reflexivity|].
  unfold Cache_store. cbn [Cache_lookup]. now rewrite typ_eqb_refl.
Qed.

End Properties.

(** * The model on concrete requests *)

Section Examples.

#[local] Existing Instance Demo.std.
#[local] Existing Instance Demo.usr.

(** C1: on [Email string `body:"email,omitempty"`] and the JSON body
    [{"email":"a@b.io"}], [Bind] looks the whole marker value
    "email,omitempty" up in the body map, finds nothing and leaves [Email]
    empty; the same happens with the markers [json], [path] and [cookie]
    and in [BindStruct], while the [query] branch cuts the value at the
    comma and finds its parameter. *)
Lemma Bind_keeps_modifier_in_key :
  let r := Demo.request "application/json" Demo.doc_email in
  let b : gmap string value := {[ "email" := VString "a@b.io" ]} in
  snd (Bind_body r) = ok b
  /\ Bind_resolve r b [("body", "email,omitempty")] = Some (VNil, false)
  /\ Bind_resolve r b [("json", "email,omitempty")] = Some (VNil, false)
  /\ Bind_resolve r b [("path", "id,omitempty")] = Some (VString "", false)
  /\ Bind_resolve r b [("cookie", "session,omitempty")] = Some (VNil, false)
  /\ Bind_resolve r b [("query", "email,omitempty")] = Some (VString "q@b.io", true)
  /\ BindStruct (TStruct [Demo.field "Email" [("body", "email,omitempty")] TString])
       (GStruct [GString ""]) b = (GStruct [GString ""], None)
  /\ Bind_error (fst (Bind r (Demo.user None) [])) = None
  /\ Bind_record (fst (Bind r (Demo.user None) []))
     = [GInt 7; GString ""; GString "s3cr3t"].
Proof. vm_compute. repeat split; reflexivity. Qed.

(** C2: on [Name string `body:"name" json:"name,omitempty"`] the winning
    marker, [body], has no modifier, and [Bind] still treats the field as
    omitEmpty, because line 157 searches the values of all five markers
    joined together: with the body [{"name":""}] the field keeps its old
    content, while the same field without the losing marker is set to the
    empty string.  [getFieldInfo] records omitEmpty = false for it.  The
    search is for the text anywhere, so a key spelled "omitempty" counts as
    the modifier too. *)
Lemma Bind_omitEmpty_from_losing_marker :
  let r := Demo.request "application/json" Demo.doc_name in
  let b : gmap string value := {[ "name" := VString "" ]} in
  let tag2 := [("body", "name"); ("json", "name,omitempty")] in
  let tag1 := [("body", "name")] in
  snd (Bind_body r) = ok b
  /\ Spec.winning_marker tag2 = Some ("body", "name")
  /\ Spec.winning_marker tag1 = Some ("body", "name")
  /\ Spec.omitEmpty tag2 = false
  /\ Bind_omitEmpty tag2 = true
  /\ Bind_omitEmpty tag1 = false
  /\ OmitEmpty <$> (getFieldInfo_field (Demo.field "Name" tag2 TString) 0 ∅ !! "Name")
     = Some false
  /\ Bind_field r b (Demo.field "Name" tag2 TString) (GString "old")
     = (GString "old", None)
  /\ Bind_field r b (Demo.field "Name" tag1 TString) (GString "old")
     = (GString "", None)
  /\ Spec.omitEmpty [("body", "omitempty")] = false
  /\ Bind_omitEmpty [("body", "omitempty")] = true.
Proof. vm_compute. repeat split; reflexivity. Qed.

(** [Email string `body:"email,omitempty"`]: the only marker names the modifier. *)
Example omitEmpty_of_only_marker :
  (forall i info,
     OmitEmpty <$> (getFieldInfo_field
                      (Demo.field "Email" [("body", "email,omitempty")] TString)
                      i info !! "Email") = Some true)
  /\ Bind_omitEmpty [("body", "email,omitempty")] = true.
Proof.
  destruct (omitEmpty_substring_of_winner
              (Demo.field "Email" [("body", "email,omitempty")] TString)
              body "email,omitempty" eq_refl) as [Hinfo HBind].
  split; [exact Hinfo|]. apply HBind.
  intros m' Hin Hne. cbn in Hin.
  destruct Hin as [<-|[<-|[<-|[<-|[<-|[]]]]]]; try reflexivity. now elim Hne.
Qed.

(** A JSON body that does not decode, bound into
    [struct { ID int `path:"id"`; Email string `query:"email,omitempty"`;
    Name string `body:"name"`; Session string `cookie:"session"` }]: the
    path, query and cookie fields receive their values, the body field
    keeps its content, and there is no error. *)
Lemma Bind_survives_body_failure_witness :
  let r := Demo.request "application/json; charset=utf-8" "{broken" in
  let i := {| Target_type :=
                TStruct [Demo.field "ID" [("path", "id")] (TInt Int);
                         Demo.field "Email" [("query", "email,omitempty")] TString;
                         Demo.field "Name" [("body", "name")] TString;
                         Demo.field "Session" [("cookie", "session")] TString];
              Target_fields := [GInt 0; GString ""; GString "old"; GString ""];
              Target_Validate := None |} in
  snd (Bind_body r) = ok ∅
  /\ Bind_error (fst (Bind r i [])) = None
  /\ Bind_record (fst (Bind r i [])) !! 0%nat = Some (GInt 7)
  /\ Bind_record (fst (Bind r i [])) !! 1%nat = Some (GString "q@b.io")
  /\ Bind_record (fst (Bind r i [])) !! 3%nat = Some (GString "s3cr3t")
  /\ Bind_record (fst (Bind r i []))
     = Bind_record (fst (Bind (set_Body r None) i [])).
Proof.
  intros r i.
  assert (Hall : forall (j : nat) fj gj,
             struct_fields (Target_type i) !! j = Some fj ->
             Target_fields i !! j = Some gj ->
             snd (Bind_field r ∅ fj gj) = None).
  { intros j fj gj Hf Hg.
    destruct j as [|[|[|[|j]]]]; cbn in Hf, Hg; try discriminate;
      injection Hf as <-; injection Hg as <-; vm_compute; reflexivity. }
  destruct (Bind_survives_body_failure r i []
              (NewBuffer (list_byte_of_string "{broken")))
    as (C1 & _ & C3 & _ & _ & C6 & C7).
  - reflexivity.
  - reflexivity.
  - reflexivity.
  - left. split; [reflexivity|]. eexists. reflexivity.
  - split; [exact C1|].
    split; [rewrite (C7 Hall); reflexivity|].
    split.
    { destruct (C6 0%nat (Demo.field "ID" [("path", "id")] (TInt Int)) (GInt 0) "7"
                  eq_refl eq_refl) as [R _].
      - left. exists "id". repeat split; [discriminate].
      - intros j fj gj Hj. apply Hall.
      - rewrite R. vm_compute. reflexivity. }
    split.
    { destruct (C6 1%nat (Demo.field "Email" [("query", "email,omitempty")] TString)
                  (GString "") "q@b.io" eq_refl eq_refl) as [R _].
      - right. left. exists "email,omitempty". repeat split; [discriminate].
      - intros j fj gj Hj. apply Hall.
      - rewrite R. vm_compute. reflexivity. }
    split; [|exact C3].
    destruct (C6 3%nat (Demo.field "Session" [("cookie", "session")] TString)
                (GString "") "s3cr3t" eq_refl eq_refl) as [R _].
    + right. right. exists "session". repeat split. right. discriminate.
    + intros j fj gj Hj. apply Hall.
    + rewrite R. vm_compute. reflexivity.
Defined.

(** A JSON body of 18 bytes. *)
Lemma Bind_replays_body_witness :
  let r := Demo.request "application/json" Demo.doc_email in
  Body (Bind_request (fst (Bind r (Demo.user None) [])))
  = Some (NewBuffer (list_byte_of_string Demo.doc_email))
  /\ ReadAll (NewBuffer (list_byte_of_string Demo.doc_email))
     = (list_byte_of_string Demo.doc_email, None, NewBuffer [])
  /\ Bind_request (fst (Bind r (Demo.user None) [])) = r
  /\ forall i2 fieldCache2,
       Bind (Bind_request (fst (Bind r (Demo.user None) []))) i2 fieldCache2
       = Bind r i2 fieldCache2.
Proof.
  apply (Bind_replays_body (Demo.request "application/json" Demo.doc_email)
           (Demo.user None) [] (NewBuffer (list_byte_of_string Demo.doc_email)));
    reflexivity.
Defined.

(** [Session int `cookie:"session"`] with the cookie [session=s3cr3t], between
    a path field and a query field. *)
Lemma Bind_stops_at_first_failure_witness :
  let r := Demo.request "application/json" Demo.doc_email in
  let e := wrapError "error setting field Session: "
             (Demo.syntax_error "ParseInt" "s3cr3t") in
  Bind_error (fst (Bind r Demo.session [])) = Some e
  /\ (exists e0,
        e = wrapError ("error setting field " ++ "Session" ++ ": ") e0
        \/ e = wrapError ("error binding nested field " ++ "Session" ++ ": ") e0)
  /\ Bind_record (fst (Bind r Demo.session [])) = [GInt 7; GInt 0; GString ""]
  /\ List.filter is_EvValidate (Bind_events (fst (Bind r Demo.session []))) = [].
Proof.
  apply (Bind_stops_at_first_failure
           (Demo.request "application/json" Demo.doc_email) Demo.session []
           (Demo.request "application/json" Demo.doc_email)
           [EvReadBody; EvSetBody (list_byte_of_string Demo.doc_email)]
           {[ "email" := VString "a@b.io" ]}
           [Demo.field "ID" [("path", "id")] (TInt Int)]
           (Demo.field "Session" [("cookie", "session")] (TInt Int))
           [Demo.field "Email" [("query", "email")] TString]
           [GInt 0] (GInt 0) [GString ""] [GInt 7] (GInt 0));
    reflexivity.
Defined.

(** A [Validate] that refuses every record. *)
Lemma Bind_validates_once_witness :
  let r := Demo.request "application/json" Demo.doc_email in
  let i := Demo.user (Some Demo.too_young) in
  let vals' := [GInt 7; GString ""; GString "s3cr3t"] in
  Bind_events (fst (Bind r i []))
  = [EvReadBody; EvSetBody (list_byte_of_string Demo.doc_email);
     EvValidate (GStruct vals')]
  /\ List.filter is_EvValidate (Bind_events (fst (Bind r i [])))
     = [EvValidate (GStruct vals')]
  /\ Bind_record (fst (Bind r i [])) = vals'
  /\ Bind_error (fst (Bind r i []))
     = Some (wrapError "validation failed: " (errorString "user must be 18 or older")).
Proof.
  apply (Bind_validates_once
           (Demo.request "application/json" Demo.doc_email)
           (Demo.user (Some Demo.too_young)) []
           (Demo.request "application/json" Demo.doc_email)
           [EvReadBody; EvSetBody (list_byte_of_string Demo.doc_email)]
           {[ "email" := VString "a@b.io" ]}
           [GInt 7; GString ""; GString "s3cr3t"] Demo.too_young);
    reflexivity.
Defined.

(** C8, as stated, fails on the null raw value: [setField] returns before
    it looks at the field, so the JSON body [{"dims":null}] binds to
    [Dims [2]int `body:"dims"`] without an error and without a change. *)
Lemma setField_array_accepts_nil :
  setField (TArray 2 (TInt Int)) (GArray [GInt 1; GInt 2]) VNil
  = (GArray [GInt 1; GInt 2], None)
  /\ snd (Bind_body (Demo.request "application/json" Demo.doc_dims))
     = ok {[ "dims" := VNil ]}
  /\ Bind_error (fst (Bind (Demo.request "application/json" Demo.doc_dims) Demo.box []))
     = None
  /\ Bind_record (fst (Bind (Demo.request "application/json" Demo.doc_dims) Demo.box []))
     = [GArray [GInt 1; GInt 2]].
Proof. vm_compute. repeat split; reflexivity. Qed.

(** [TestBindArrayNotSupported]: [{"values":[1,2,3]}] into
    [Values [3]int `body:"values"`]. *)
Example Bind_array_not_supported :
  Bind_field (Demo.request "application/json" Demo.doc_email)
    {[ "values" := VSlice [VFloat64 1; VFloat64 2; VFloat64 3] ]}
    (Demo.field "Values" [("body", "values")] (TArray 3 (TInt Int)))
    (GArray [GInt 0; GInt 0; GInt 0])
  = (GArray [GInt 0; GInt 0; GInt 0],
     Some (wrapError "error setting field Values: "
             (errorString "arrays are not supported, use slices instead"))).
Proof. vm_compute. reflexivity. Qed.

(** A body stream with the unknown content length -1. *)
Lemma Bind_without_body_witness :
  let r := {| Method := "POST";
              Header := {[ "Content-Type" := ["application/json"] ]};
              ContentLength := -1;
              Body := Some (NewBuffer (list_byte_of_string Demo.doc_email));
              PathValues := {[ "id" := "7" ]};
              URL_Query := ∅;
              Cookies := [] |} in
  Bind_body r = (r, [], ok ∅)
  /\ Bind_request (fst (Bind r (Demo.user None) [])) = r
  /\ List.filter (fun ev => negb (is_EvValidate ev))
       (Bind_events (fst (Bind r (Demo.user None) []))) = []
  /\ forall (k : nat) field f v,
       struct_fields (Target_type (Demo.user None)) !! k = Some field ->
       Target_fields (Demo.user None) !! k = Some f ->
       Spec.winning_marker (Tag field) = Some (body, v)
       \/ Spec.winning_marker (Tag field) = Some (jjson, v) ->
       Bind_record (fst (Bind r (Demo.user None) [])) !! k = Some f.
Proof.
  apply (Bind_without_body
           {| Method := "POST";
              Header := {[ "Content-Type" := ["application/json"] ]};
              ContentLength := -1;
              Body := Some (NewBuffer (list_byte_of_string Demo.doc_email));
              PathValues := {[ "id" := "7" ]};
              URL_Query := ∅;
              Cookies := [] |} (Demo.user None) []).
  right. cbn. lia.
Defined.

(** [TestContentTypeParser]. *)
Example parseContentType_table :
  map parseContentType
    ["application/json"; "application/json; charset=utf-8";
     "application/json;charset=utf-8"; "text/plain";
     "text/plain; charset=iso-8859-1"; "";
     "  application/json  ; charset=utf-8"; "charset=utf-8"; "Application/JSON"]
  = ["application/json"; "application/json"; "application/json"; "text/plain";
     "text/plain"; ""; "application/json"; ""; "application/json"].
Proof. vm_compute. reflexivity. Qed.

(** A body that does not decode: the path and cookie fields are bound. *)
Example Bind_broken_json :
  let out := fst (Bind (Demo.request "application/json" "{broken") (Demo.user None) []) in
  Bind_error out = None
  /\ Bind_record out = [GInt 7; GString ""; GString "s3cr3t"].
Proof. vm_compute. split; reflexivity. Qed.

(** [{"nums":[13,24,35]}] into [Nums []int], and
    [{"nested":{"email":"a@b.io","count":42}}] into a nested record. *)
Example setField_int_slice :
  setField (TSlice (TInt Int)) (GSlice None)
    (VSlice [VFloat64 13; VFloat64 24; VFloat64 35])
  = (GSlice (Some [GInt 13; GInt 24; GInt 35]), None).
Proof. vm_compute. reflexivity. Qed.

Example BindStruct_nested :
  BindStruct
    (TStruct [Demo.field "NEmail" [("body", "email")] TString;
              Demo.field "Count" [("body", "count")] (TInt Int)])
    (GStruct [GString ""; GInt 0])
    {[ "email" := VString "a@b.io"; "count" := VFloat64 42 ]}
  = (GStruct [GString "a@b.io"; GInt 42], None).
Proof. vm_compute. reflexivity. Qed.

(** -5 into an unsigned field. *)
Example setField_negative_to_unsigned :
  snd (setField (TUint Uint) (GUint 0) (VInt Int (-5)))
  = Some (errorString "cannot convert negative int to uint")
  /\ snd (setField (TUint Uint) (GUint 0) (VFloat64 (-5)))
     = Some (errorString "cannot convert negative float to uint").
Proof. vm_compute. split; reflexivity. Qed.

(** [TestFieldCache]: the entry built for a type with three bound fields. *)
Example getFieldInfo_user :
  let info := fst (getFieldInfo Demo.user_type []) in
  size info = 3%nat
  /\ (fun fi => (Index fi, Source fi, TagName fi, OmitEmpty fi)) <$> (info !! "Email")
     = Some (1, "body", "email,omitempty", true).
Proof. vm_compute. split; reflexivity. Qed.

End Examples.

(** * Further properties of the code *)

Section Coverage.

Context {std : GoStd} {usr : UserMethods}.

Implicit Types (r : Request) (b : gmap string value) (tag : StructTag).
Implicit Types (field : StructField) (f g : gval) (vals : list gval).

(** ** Coercion *)

Lemma setField_nil (t : typ) f : setField t f VNil = (f, None).
Proof. destruct t; reflexivity. Qed.

(** X1: a string field, or a pointer to one, takes every raw value: the
    coercion never returns an error. *)
Theorem setField_string_never_fails f (v : value) :
  snd (setField TString f v) = None
  /\ snd (setField (TPtr TString) f v) = None.
Proof.
  assert (H : forall f', snd (setField TString f' v) = None).
  { intros f'. destruct v as [| | | | | | | | | | |o]; try reflexivity.
    cbn. unfold setString, toString. now destruct (other_Stringer o). }
  split; [apply H|].
  destruct v as [| | | | | | | | | | |o]; try reflexivity.
  cbn. unfold setString, toString. now destruct (other_Stringer o).
Qed.

Lemma wrap_int_in_range (k : IntKind) (x : Z) : int_in_range k (wrap_int k x) = true.
Proof.
  unfold int_in_range, wrap_int.
  assert (Hm : 0 < 2 ^ int_bits k) by (destruct k; reflexivity).
  pose proof (Z.mod_pos_bound x _ Hm) as Hr.
  assert (Hh : 2 ^ int_bits k / 2 = 2 ^ (int_bits k - 1)) by (destruct k; reflexivity).
  assert (Hd : 2 ^ int_bits k = 2 * 2 ^ (int_bits k - 1)) by (destruct k; reflexivity).
  rewrite Hh.
  destruct (Z.ltb_spec (x mod 2 ^ int_bits k) (2 ^ (int_bits k - 1)));
    apply andb_true_intro; split;
    try (apply Z.leb_le; lia); apply Z.ltb_lt; lia.
Qed.

Lemma wrap_int_id (k : IntKind) (x : Z) : int_in_range k x = true -> wrap_int k x = x.
Proof.
  unfold int_in_range, wrap_int. intros H.
  apply andb_prop in H as [Hlo Hhi]. apply Z.leb_le in Hlo. apply Z.ltb_lt in Hhi.
  assert (Hh : 2 ^ int_bits k / 2 = 2 ^ (int_bits k - 1)) by (destruct k; reflexivity).
  assert (Hd : 2 ^ int_bits k = 2 * 2 ^ (int_bits k - 1)) by (destruct k; reflexivity).
  assert (Hp : 0 < 2 ^ (int_bits k - 1)) by (destruct k; reflexivity).
  rewrite Hh.
  destruct (Z.le_gt_cases 0 x) as [Hx|Hx].
  - rewrite (Z.mod_small x) by lia.
    destruct (Z.ltb_spec x (2 ^ (int_bits k - 1))); lia.
  - assert (Hmod : x mod 2 ^ int_bits k = x + 2 ^ int_bits k).
    { symmetry. apply (Z.mod_unique_pos _ _ (-1)); lia. }
    rewrite Hmod.
    destruct (Z.ltb_spec (x + 2 ^ int_bits k) (2 ^ (int_bits k - 1))); lia.
Qed.

Lemma wrap_uint_in_range (k : UintKind) (x : Z) : uint_in_range k (wrap_uint k x) = true.
Proof.
  unfold uint_in_range, wrap_uint.
  assert (Hm : 0 < 2 ^ uint_bits k) by (destruct k; reflexivity).
  pose proof (Z.mod_pos_bound x _ Hm) as Hr.
  apply andb_true_intro; split; [apply Z.leb_le|apply Z.ltb_lt]; lia.
Qed.

(** X2: an integer raw value of any signed kind is never refused by a
    signed field: the field receives the value itself when it fits the
    field's kind and the value wrapped to the field's width when it does
    not, so what is stored always lies in the range of the kind. *)
Theorem setInt_stores_in_range (k k' : IntKind) f (n : Z) :
  setField (TInt k) f (VInt k' n) = (GInt (wrap_int k n), None)
  /\ int_in_range k (wrap_int k n) = true
  /\ (wrap_int k n - n) mod 2 ^ int_bits k = 0
  /\ (int_in_range k n = true -> wrap_int k n = n)
  /\ (int_in_range k n = false -> wrap_int k n <> n).
Proof.
  split; [reflexivity|]. split; [apply wrap_int_in_range|]. split.
  - unfold wrap_int.
    assert (Hm : 0 < 2 ^ int_bits k) by (destruct k; reflexivity).
    destruct (_ <? _).
    + rewrite Zminus_mod, Z.mod_mod, Z.sub_diag by lia. reflexivity.
    + replace (n mod 2 ^ int_bits k - 2 ^ int_bits k - n)
        with (n mod 2 ^ int_bits k - n + (-1) * 2 ^ int_bits k) by lia.
      rewrite Z.mod_add by lia.
      rewrite Zminus_mod, Z.mod_mod, Z.sub_diag by lia. reflexivity.
  - split; [apply wrap_int_id|].
    intros Hout Heq. rewrite <- Heq, wrap_int_in_range in Hout. discriminate.
Qed.

(** X3: an unsigned field refuses every negative [int] and every negative
    [float64] and keeps its content; whenever [setUint] succeeds the field
    holds a number in the range of its kind, and whenever it fails the
    field is untouched. *)
Theorem setUint_never_negative (k : UintKind) f (v : value) g :
  (forall n, n < 0 ->
     setUint k f (VInt Int n)
     = (f, Some (errorString "cannot convert negative int to uint")))
  /\ (forall x, PrimFloat.ltb x 0%float = true ->
       setUint k f (VFloat64 x)
       = (f, Some (errorString "cannot convert negative float to uint")))
  /\ (setUint k f v = (g, None) -> exists n, g = GUint n /\ uint_in_range k n = true)
  /\ (forall e, setUint k f v = (g, Some e) -> g = f).
Proof.
  split.
  { intros n Hn. cbn. destruct (Z.ltb_spec n 0); [reflexivity|lia]. }
  split.
  { intros x Hx. cbn. now rewrite Hx. }
  split.
  - destruct v as [|s|b0|ki n|ku n|x|x|bs|l|l|m|o];
      try destruct ki; try destruct ku; cbn;
      repeat match goal with
             | |- context [if ?c then _ else _] => destruct c
             | |- context [match ParseUint ?s with _ => _ end] => destruct (ParseUint s)
             end;
      try discriminate;
      intros [= <-]; eexists; split; try reflexivity; apply wrap_uint_in_range.
  - intros e.
    destruct v as [|s|b0|ki n|ku n|x|x|bs|l|l|m|o];
      try destruct ki; try destruct ku; cbn;
      repeat match goal with
             | |- context [if ?c then _ else _] => destruct c
             | |- context [match ParseUint ?s with _ => _ end] => destruct (ParseUint s)
             end;
      try discriminate; now intros [= <- _].
Qed.


Lemma setSlice_by_fill (e : typ) f (l : list value) :
  setField (TSlice e) f (VSlice l)
  = match setSlice_fill e l 0 with
    | err er => (f, Some er)
    | ok s => (GSlice (Some s), None)
    end.
Proof.
  change (setField (TSlice e) f (VSlice l)) with (setSlice setField e f (VSlice l)).
  unfold setSlice.
  match goal with
  | |- context [?F l 0%nat] =>
      assert (HF : forall l i, F l i = setSlice_fill e l i); [|now rewrite HF]
  end.
  clear l. induction l as [|vi l IH]; intros i; [reflexivity|].
  cbn [setSlice_fill]. rewrite <- IH. unfold setSlice_elem.
  destruct e; reflexivity.
Qed.

Lemma setSlice_fill_all_ok (e : typ) (l : list value) (i : nat) :
  Forall (fun vi => snd (setSlice_elem e vi) = None) l ->
  setSlice_fill e l i = ok (map (fun vi => fst (setSlice_elem e vi)) l).
Proof.
  intros H. revert i. induction H as [|vi l Hvi _ IH]; intros i; [reflexivity|].
  cbn [setSlice_fill map]. destruct (setSlice_elem e vi) as [g oe].
  cbn in Hvi. subst oe. now rewrite IH.
Qed.

Lemma setSlice_fill_first_error (e : typ) (l1 l2 : list value) (vi : value) er (i : nat) :
  Forall (fun vi => snd (setSlice_elem e vi) = None) l1 ->
  snd (setSlice_elem e vi) = Some er ->
  setSlice_fill e (l1 ++ vi :: l2)%list i
  = err (wrapError ("error setting slice element at index "
                    ++ itoa (i + List.length l1) ++ ": ") er).
Proof.
  intros H Hvi. revert i. induction H as [|v1 l1 Hv1 _ IH]; intros i.
  - cbn [app setSlice_fill List.length]. destruct (setSlice_elem e vi) as [g oe].
    cbn in Hvi. subst oe. now rewrite Nat.add_0_r.
  - cbn [app setSlice_fill List.length]. destruct (setSlice_elem e v1) as [g oe].
    cbn in Hv1. subst oe. rewrite IH. now rewrite Nat.add_succ_r.
Qed.

(** X4: a sequence of raw values whose elements can all be coerced gives
    the field a fresh slice with one element per raw value, in the same
    order, each the coercion of its raw value into a zero element. *)
Theorem setSlice_elementwise (e : typ) f (l : list value) :
  Forall (fun vi => snd (setSlice_elem e vi) = None) l ->
  setField (TSlice e) f (VSlice l)
  = (GSlice (Some (map (fun vi => fst (setSlice_elem e vi)) l)), None).
Proof. intros H. now rewrite setSlice_by_fill, (setSlice_fill_all_ok e l 0 H). Qed.

(** X5: when an element of the sequence cannot be coerced, the elements
    before it being fine, the field keeps the content it had and the error
    names the index of that element and wraps its cause. *)
Theorem setSlice_first_bad_element (e : typ) f (l1 l2 : list value) (vi : value) er :
  Forall (fun vi => snd (setSlice_elem e vi) = None) l1 ->
  snd (setSlice_elem e vi) = Some er ->
  setField (TSlice e) f (VSlice (l1 ++ vi :: l2)%list)
  = (f, Some (wrapError ("error setting slice element at index "
                         ++ itoa (List.length l1) ++ ": ") er)).
Proof.
  intros H Hvi.
  now rewrite setSlice_by_fill, (setSlice_fill_first_error e l1 l2 vi er 0 H Hvi).
Qed.

(** X6: a failed coercion into a field that is neither a record nor a
    pointer (nor of a type with [UnmarshalText]) leaves the field as it
    was; a slice field in particular is replaced as a whole or not at
    all. *)
Theorem setField_failure_leaves_field (t : typ) f (v : value) g e :
  atomic t = true ->
  setField t f v = (g, Some e) -> g = f.
Proof.
  intros Ha.
  destruct v as [|s|b0|ki n|ku n|x|x'|bs|l|l|m|o] eqn:Hv;
    [rewrite setField_nil; now intros [= <-]|..];
    (destruct t as [|k|k|k| |el|len el|fs|el|k|rc mt u]; try discriminate Ha;
     [ (* TBool *) cbn; unfold setBool
     | (* TInt *) cbn; unfold setInt
     | (* TUint *) destruct k; cbn; unfold setUint
     | (* TFloat *) cbn; unfold setFloat
     | (* TString *) cbn; unfold setString, toString
     | (* TSlice *) idtac
     | (* TArray *) cbn
     | (* TOther *) cbn ]);
    try (rewrite setSlice_by_fill; destruct (setSlice_fill _ _ _));
    try (change (setField (TSlice el) f ?w) with (setSlice setField el f w);
         unfold setSlice; destruct (Kind_of el));
    try destruct ki; try destruct ku;
    repeat match goal with
           | |- context [if ?c then _ else _] => destruct c
           | |- context [match ParseInt ?s with _ => _ end] => destruct (ParseInt s)
           | |- context [match ParseUint ?s with _ => _ end] => destruct (ParseUint s)
           | |- context [match ParseBool ?s with _ => _ end] => destruct (ParseBool s)
           | |- context [match ParseFloat ?s with _ => _ end] => destruct (ParseFloat s)
           | |- context [match other_Stringer ?o with _ => _ end] => destruct (other_Stringer o)
           end;
    try discriminate; now intros [= <- _].
Qed.

(** X7: what [parseBody] makes of a form field decides whether a slice
    field can take it.  A field posted once is a string and becomes a
    one-element slice when the elements are of string kind; a field posted
    several times (or with no value at all) is a [[]string], which
    [setSlice] refuses for every slice field. *)
Theorem setSlice_of_form_value (e : typ) f (posted : list string) :
  (forall x, posted = [x] -> Kind_of e = String_ ->
     setField (TSlice e) f (form_value posted) = (GSlice (Some [GString x]), None))
  /\ (List.length posted <> 1%nat ->
      setField (TSlice e) f (form_value posted)
      = (f, Some (errorString "cannot convert []string to slice"))).
Proof.
  split.
  - intros x -> He.
    change (setField (TSlice e) f (form_value [x]))
      with (setSlice setField e f (VString x)).
    unfold setSlice. now rewrite He.
  - intros Hlen. destruct posted as [|x [|y posted]]; try reflexivity.
    now elim Hlen.
Qed.

End Coverage.

Section Typing.

Context {std : GoStd} {usr : UserMethods}.

Implicit Types (f g : gval) (vals : list gval).

(** Induction on type descriptors, with the fields of a record. *)
Lemma typ_fields_ind (P : typ -> Prop) :
  P TBool -> (forall k, P (TInt k)) -> (forall k, P (TUint k)) ->
  (forall k, P (TFloat k)) -> P TString ->
  (forall e, P e -> P (TSlice e)) ->
  (forall n e, P e -> P (TArray n e)) ->
  (forall fs, Forall (fun fd => P (Type_ fd)) fs -> P (TStruct fs)) ->
  (forall e, P e -> P (TPtr e)) ->
  (forall k, P (TOther k)) ->
  (forall rc m u, P u -> P (TText rc m u)) ->
  forall t, P t.
Proof.
  intros HB HI HU HF HS HSl HA HSt HP HO HT.
  fix IH 1. intros [|k|k|k| |e|n e|fs|e|k|rc m u].
  - exact HB.
  - apply HI.
  - apply HU.
  - apply HF.
  - exact HS.
  - apply HSl, IH.
  - apply HA, IH.
  - apply HSt. induction fs as [|fd fs IHfs]; constructor; [apply IH|exact IHfs].
  - apply HP, IH.
  - apply HO.
  - apply HT, IH.
Qed.

Lemma has_type_struct (fs : list StructField) (l : list gval) :
  has_type (TStruct fs) (GStruct l) = fields_have_type fs l.
Proof.
  reflexivity.
Qed.

Lemma forallb_repeat {A} (p : A -> bool) (x : A) (n : nat) :
  p x = true -> forallb p (repeat x n) = true.
Proof. intros H. induction n as [|n IH]; [reflexivity|]. cbn. now rewrite H, IH. Qed.

(** The zero value of a type is a content of that type. *)
Lemma zero_has_type (t : typ) : has_type t (zero t) = true.
Proof.
  induction t as [|k|k|k| |e IH|n e IH|fs IH|e IH|k|rc m u IH] using typ_fields_ind;
    try reflexivity; try (now destruct k).
  - cbn [zero has_type]. rewrite repeat_length, Nat.eqb_refl.
    now apply forallb_repeat.
  - cbn [zero]. rewrite has_type_struct.
    induction IH as [|fd fs Hfd _ IHfs]; [reflexivity|].
    cbn [map fields_have_type]. now rewrite Hfd, IHfs.
  - destruct u; exact IH.
Qed.

Lemma plain_not_text (t : typ) :
  plain t = true -> Implements t = false /\ PointerTo_Implements t = false.
Proof.
  destruct t as [|k|k|k| |e|n e|fs|e|k|rc m u]; try (now split); try discriminate.
  cbn [plain]. intros He. split; [|reflexivity]. now destruct e.
Qed.

Lemma plain_String_kind (e : typ) :
  plain e = true -> Kind_of e = String_ -> e = TString.
Proof. destruct e as [|k|k|k| |e'|n e'|fs|e'|[]|rc m u]; try discriminate; reflexivity. Qed.

Lemma setStruct_by_assign (fs : list StructField) (vals : list gval)
    (structMap : gmap string value) :
  setField (TStruct fs) (GStruct vals) (VMap structMap)
  = let '(vals', oe) := setStruct_assign structMap fs vals in (GStruct vals', oe).
Proof.
  change (setField (TStruct fs) (GStruct vals) (VMap structMap))
    with (setStruct setField fs (GStruct vals) (VMap structMap)).
  unfold setStruct.
  lazymatch goal with
  | |- ?L = _ =>
      match L with
      | context [?F fs vals] =>
          assert (HF : forall fs vals, F fs vals = setStruct_assign structMap fs vals);
          [|now rewrite HF]
      end
  end.
  clear fs vals. induction fs as [|fd fs IH]; intros [|g vals]; try reflexivity.
  cbn [setStruct_assign]. rewrite <- IH. reflexivity.
Qed.

Lemma setStruct_assign_has_type (structMap : gmap string value)
    (fs : list StructField) (vals : list gval) :
  Forall (fun fd => forall g w, has_type (Type_ fd) g = true ->
                                has_type (Type_ fd) (fst (setField (Type_ fd) g w)) = true) fs ->
  fields_have_type fs vals = true ->
  fields_have_type fs (fst (setStruct_assign structMap fs vals)) = true.
Proof.
  intros Hfs. revert vals.
  induction Hfs as [|fd fs Hfd _ IH]; intros [|g vals] Hvals; try discriminate;
    [reflexivity|].
  cbn [fields_have_type] in Hvals. apply andb_prop in Hvals as [Hg Hrest].
  specialize (IH vals Hrest). cbn [setStruct_assign].
  assert (Hstep : has_type (Type_ fd) (fst (setStruct_field structMap fd g)) = true).
  { unfold setStruct_field. destruct (String.eqb _ ""); [exact Hg|].
    destruct (structMap !! _) as [nestedVal|]; [|exact Hg].
    specialize (Hfd g nestedVal Hg).
    now destruct (setField (Type_ fd) g nestedVal) as [g' oe]. }
  destruct (setStruct_field structMap fd g) as [g' [er|]]; cbn [fst] in *.
  - cbn [fields_have_type]. now rewrite Hstep, Hrest.
  - destruct (setStruct_assign structMap fs vals) as [vals'' oe'].
    cbn [fst] in *. cbn [fields_have_type]. now rewrite Hstep, IH.
Qed.

Lemma setSlice_fill_has_type (e : typ) (l : list value) (i : nat) s :
  (forall vi, has_type e (fst (setSlice_elem e vi)) = true) ->
  setSlice_fill e l i = ok s -> forallb (has_type e) s = true.
Proof.
  intros He. revert i s. induction l as [|vi l IH]; intros i s.
  - now intros [= <-].
  - cbn [setSlice_fill]. specialize (He vi).
    destruct (setSlice_elem e vi) as [g [er|]]; [discriminate|].
    destruct (setSlice_fill e l (S i)) as [s'|] eqn:Hs'; [|discriminate].
    intros [= <-]. cbn in *. now rewrite He, (IH _ _ Hs').
Qed.

Ltac scalar_cases :=
  repeat match goal with
         | k : IntKind |- _ => destruct k
         | k : UintKind |- _ => destruct k
         | |- context [if ?c then _ else _] => destruct c
         | |- context [match ParseInt ?s with _ => _ end] => destruct (ParseInt s)
         | |- context [match ParseUint ?s with _ => _ end] => destruct (ParseUint s)
         | |- context [match ParseBool ?s with _ => _ end] => destruct (ParseBool s)
         | |- context [match ParseFloat ?s with _ => _ end] => destruct (ParseFloat s)
         | |- context [match other_Stringer ?o with _ => _ end] => destruct (other_Stringer o)
         end;
  cbn [fst has_type].

(** X8: [setField] keeps a field well-typed.  On a type without
    [UnmarshalText], whatever the raw value and whether the coercion
    succeeds or fails, a content of the type is turned into a content of
    the type: integers stay in the range of their kind, arrays keep their
    length, records keep one content per field. *)
Theorem setField_has_type (t : typ) f (v : value) :
  plain t = true ->
  has_type t f = true ->
  has_type t (fst (setField t f v)) = true.
Proof.
  revert f v.
  induction t as [|k|k|k| |e IH|n e IH|fs IH|e IH|k|rc m u IH] using typ_fields_ind;
    intros f v Hplain Hf;
    (destruct (is_nil_value v) eqn:Hnil;
     [destruct v; try discriminate Hnil; rewrite setField_nil; exact Hf|]).
  - destruct v; try discriminate Hnil; cbn; unfold setBool; scalar_cases;
      first [exact Hf | reflexivity].
  - destruct v; try discriminate Hnil; cbn; unfold setInt; scalar_cases;
      first [exact Hf | apply wrap_int_in_range].
  - destruct k; destruct v; try discriminate Hnil; cbn; unfold setUint; scalar_cases;
      first [exact Hf | apply wrap_uint_in_range].
  - destruct v; try discriminate Hnil; cbn; unfold setFloat; scalar_cases;
      first [exact Hf | reflexivity].
  - destruct v; try discriminate Hnil; cbn; unfold setString, toString; scalar_cases;
      reflexivity.
  - cbn [plain] in Hplain.
    assert (Helem : forall vi, has_type e (fst (setSlice_elem e vi)) = true).
    { intros vi. unfold setSlice_elem.
      destruct e as [|k|k|k| |e'|n e'|fs|e'|k|rc m u];
        try (apply IH; [exact Hplain|apply zero_has_type]).
      pose proof (IH (GPtr (Some (zero e'))) vi Hplain (zero_has_type e')) as Hp.
      destruct (is_nil_value vi) eqn:Hvi.
      - destruct vi; try discriminate Hvi. rewrite setField_nil. apply zero_has_type.
      - cbn [plain] in Hplain.
        assert (Hstep : setField (TPtr e') (GPtr (Some (zero e'))) vi
                        = let '(g, oe) := setField e' (zero e') vi in (GPtr (Some g), oe)).
        { destruct e'; try discriminate Hplain; destruct vi; try discriminate Hvi;
            reflexivity. }
        rewrite Hstep in Hp.
        destruct (setField e' (zero e') vi) as [g' oe']. exact Hp. }
    destruct v as [|s|b0|ki z|ku z|x|x'|bs|l|l|mp|o]; try discriminate Hnil;
      try (cbn; exact Hf).
    + change (setField (TSlice e) f (VString s))
        with (setSlice setField e f (VString s)).
      unfold setSlice. destruct (Kind_of e) eqn:Hk; try exact Hf.
      now rewrite (plain_String_kind e Hplain Hk).
    + rewrite setSlice_by_fill.
      destruct (setSlice_fill e l 0) as [s'|er] eqn:Hfill; [|exact Hf].
      exact (setSlice_fill_has_type e l 0 s' Helem Hfill).
  - destruct v; try discriminate Hnil; exact Hf.
  - cbn [plain] in Hplain.
    destruct v as [|s|b0|ki z|ku z|x|x'|bs|l|l|mp|o]; try discriminate Hnil;
      try (cbn; exact Hf);
      try (change (setField (TStruct fs) f (VOther o))
             with (setStruct setField fs f (VOther o));
           unfold setStruct; destruct (value_Kind (VOther o)); exact Hf).
    destruct f as [| | | | | | |vals| |]; try discriminate Hf.
    rewrite setStruct_by_assign.
    pose proof (setStruct_assign_has_type mp fs vals) as Hst.
    destruct (setStruct_assign mp fs vals) as [vals' oe].
    cbn [fst] in *. rewrite has_type_struct. apply Hst.
    + apply Forall_forall. intros fd Hfd g w Hg.
      apply (proj1 (Forall_forall _ _) IH fd Hfd); [|exact Hg].
      apply (proj1 (forallb_forall _ _) Hplain fd). now apply list_elem_of_In.
    + now rewrite <- has_type_struct.
  - cbn [plain] in Hplain.
    assert (Hstep : setField (TPtr e) f v
                    = let '(g, oe) := setField e (Elem_or_New e f) v in (GPtr (Some g), oe)).
    { destruct e; try discriminate Hplain; destruct v; try discriminate Hnil;
        reflexivity. }
    rewrite Hstep.
    pose proof (IH (Elem_or_New e f) v Hplain) as Hp.
    destruct (setField e (Elem_or_New e f) v) as [g' oe'].
    cbn [fst has_type] in *. apply Hp.
    destruct f as [| | | | | | | |[p|]|]; try discriminate Hf;
      [exact Hf|apply zero_has_type].
  - destruct v; try discriminate Hnil; exact Hf.
  - discriminate Hplain.
Qed.

End Typing.

Section BindTyping.

Context {std : GoStd} {usr : UserMethods}.

Implicit Types (r : Request) (b : gmap string value) (tag : StructTag).
Implicit Types (field : StructField) (f g : gval) (vals : list gval).

Lemma init_nil_has_type (t : typ) f :
  has_type t f = true -> has_type t (init_nil t f) = true.
Proof.
  destruct t; try (intros H; exact H).
  destruct f as [| | | | | | | |[p|]|]; try (intros H; exact H).
  intros _. apply zero_has_type.
Qed.

Lemma BindStruct_fields_has_type (data : gmap string value)
    (fs : list StructField) (vals : list gval) :
  forallb (fun fd => plain (Type_ fd)) fs = true ->
  fields_have_type fs vals = true ->
  fields_have_type fs (fst (BindStruct_fields fs vals data)) = true.
Proof.
  revert vals. induction fs as [|fd fs IH]; intros [|g vals] Hplain Hvals;
    try discriminate; [reflexivity|].
  cbn [forallb] in Hplain. apply andb_prop in Hplain as [Hfd Hplain].
  cbn [fields_have_type] in Hvals. apply andb_prop in Hvals as [Hg Hrest].
  specialize (IH vals Hplain Hrest). cbn [BindStruct_fields].
  match goal with
  | |- context [let '(_, _) := ?X in match _ with _ => _ end] =>
      assert (Hstep : has_type (Type_ fd) (fst X) = true); [|destruct X as [g' [er|]]]
  end.
  { destruct (String.eqb _ ""); [exact Hg|].
    destruct (data !! _) as [nestedValue|]; [|exact Hg].
    pose proof (setField_has_type (Type_ fd) (init_nil (Type_ fd) g) nestedValue Hfd
                  (init_nil_has_type _ _ Hg)) as Hs.
    now destruct (setField (Type_ fd) (init_nil (Type_ fd) g) nestedValue). }
  - cbn [fst fields_have_type] in *. now rewrite Hstep, Hrest.
  - destruct (BindStruct_fields fs vals data) as [vals'' oe'].
    cbn [fst fields_have_type] in *. now rewrite Hstep, IH.
Qed.

Lemma plain_struct_fields (t : typ) (vals : list gval) :
  plain t = true -> has_type t (GStruct vals) = true ->
  t = TStruct (struct_fields t).
Proof. destruct t; try discriminate; reflexivity. Qed.

Lemma BindStruct_has_type (t : typ) f (data : gmap string value) :
  plain t = true -> has_type t f = true ->
  has_type t (fst (BindStruct t f data)) = true.
Proof.
  intros Hplain Hf. unfold BindStruct.
  destruct t as [|k|k|k| |e|n e|fs|e|k|rc m u]; try discriminate Hplain;
    try (destruct f; try exact Hf; discriminate Hf).
  - destruct f as [| | | | | | |vals| |]; try discriminate Hf.
    pose proof (BindStruct_fields_has_type data fs vals Hplain Hf) as H.
    cbn [struct_fields]. destruct (BindStruct_fields fs vals data) as [vals' oe].
    exact H.
  - cbn [plain] in Hplain.
    assert (Hel : has_type e (Elem_or_New e f) = true).
    { destruct f as [| | | | | | | |[p|]|]; try discriminate Hf;
        [exact Hf|apply zero_has_type]. }
    destruct (Elem_or_New e f) as [| | | | | | |vals| |] eqn:Hv; try exact Hel.
    pose proof (plain_struct_fields e vals Hplain Hel) as He.
    rewrite He in Hel, Hplain. cbn [plain] in Hplain.
    pose proof (BindStruct_fields_has_type data _ vals Hplain Hel) as H.
    destruct (BindStruct_fields (struct_fields e) vals data) as [vals' oe].
    cbn [fst has_type]. rewrite He. exact H.
Qed.

Lemma Bind_field_has_type r b field f :
  plain (Type_ field) = true -> has_type (Type_ field) f = true ->
  has_type (Type_ field) (fst (Bind_field r b field f)) = true.
Proof.
  intros Hplain Hf. unfold Bind_field.
  destruct (Bind_source _ _ _ _ _ _ _) as [[v ex]|]; [|exact Hf].
  destruct (negb ex || _); [exact Hf|].
  pose proof (init_nil_has_type _ _ Hf) as Hi.
  destruct (if struct_or_ptr_to_struct _ then _ else _) as [nestedMap|].
  - pose proof (BindStruct_has_type _ _ nestedMap Hplain Hi) as H.
    now destruct (BindStruct _ _ _).
  - pose proof (setField_has_type _ _ v Hplain Hi) as H.
    now destruct (setField _ _ _).
Qed.

Lemma Bind_fields_has_type r b (fs : list StructField) vals :
  forallb (fun fd => plain (Type_ fd)) fs = true ->
  fields_have_type fs vals = true ->
  fields_have_type fs (fst (Bind_fields r b fs vals)) = true.
Proof.
  revert vals. induction fs as [|fd fs IH]; intros [|g vals] Hplain Hvals;
    try discriminate; [reflexivity|].
  cbn [forallb] in Hplain. apply andb_prop in Hplain as [Hfd Hplain].
  cbn [fields_have_type] in Hvals. apply andb_prop in Hvals as [Hg Hrest].
  specialize (IH vals Hplain Hrest). cbn [Bind_fields].
  pose proof (Bind_field_has_type r b fd g Hfd Hg) as Hstep.
  destruct (Bind_field r b fd g) as [g' [er|]].
  - cbn [fst fields_have_type] in *. now rewrite Hstep, Hrest.
  - destruct (Bind_fields r b fs vals) as [vals'' oe'].
    cbn [fst fields_have_type] in *. now rewrite Hstep, IH.
Qed.

(** X9: [Bind] keeps the record well-typed.  For a record type without
    [UnmarshalText] fields, whatever the request holds and whether [Bind]
    returns an error or not, the record it leaves has a content of the
    field's type in every field. *)
Theorem Bind_keeps_record_typed r (i : Target) (fieldCache : Cache) :
  plain (Target_type i) = true ->
  has_type (Target_type i) (GStruct (Target_fields i)) = true ->
  has_type (Target_type i) (GStruct (Bind_record (fst (Bind r i fieldCache)))) = true.
Proof.
  intros Hplain Hty.
  pose proof (plain_struct_fields _ _ Hplain Hty) as Ht.
  rewrite Ht in Hplain, Hty |- *. cbn [plain] in Hplain. rewrite has_type_struct in *.
  cbn [struct_fields] in *.
  unfold Bind. destruct (Bind_body r) as [[r' evs] [b|e]]; [|exact Hty].
  pose proof (Bind_fields_has_type r' b _ _ Hplain Hty) as H.
  destruct (Bind_fields r' b _ _) as [vals [e|]]; [exact H|].
  destruct (Bind_validate i vals). exact H.
Qed.

End BindTyping.

Section BindEdges.

Context {std : GoStd} {usr : UserMethods}.

Implicit Types (r : Request) (b : gmap string value) (tag : StructTag).
Implicit Types (field : StructField) (f g : gval) (vals : list gval).

Lemma Bind_field_unsupplied r b field f :
  unsupplied r b (Tag field) -> Bind_field r b field f = (f, None).
Proof.
  intros H. rewrite Bind_field_by_resolve.
  destruct H as [Hw|[(v & Hw & Hv)|[(v & Hw & Hv)|[(v & Hw & Hv)|(v & Hw & Hv)]]]].
  - now rewrite (Bind_resolve_no_marker r b _ Hw).
  - rewrite (Bind_resolve_of_winner r b _ _ _ Hw).
    rewrite (proj1 (Bind_resolve_lookup_key r b v (winning_marker_value_nonempty _ _ _ Hw))).
    now rewrite Hv.
  - rewrite (Bind_resolve_of_winner r b _ _ _ Hw).
    destruct (Bind_resolve_lookup_key r b v (winning_marker_value_nonempty _ _ _ Hw))
      as (_ & -> & _).
    now rewrite Hv.
  - destruct Hw as [Hw|Hw]; rewrite (Bind_resolve_of_winner r b _ _ _ Hw);
      destruct (Bind_resolve_lookup_key r b v (winning_marker_value_nonempty _ _ _ Hw))
        as (_ & _ & Hb & Hj & _); rewrite ?Hb, ?Hj, Hv; reflexivity.
  - rewrite (Bind_resolve_of_winner r b _ _ _ Hw).
    destruct (Bind_resolve_lookup_key r b v (winning_marker_value_nonempty _ _ _ Hw))
      as (_ & _ & _ & _ & ->).
    now rewrite Hv.
Qed.

(** X10: a field whose source does not supply a value keeps the content
    it had, not even a nil pointer being allocated, wherever the loop of
    [Bind] stops: a field without a recognized marker, a path value that
    is empty, a query parameter that is missing or empty, a key that the
    body map lacks, a cookie that was not sent. *)
Theorem Bind_leaves_unsupplied_field r (i : Target) (fieldCache : Cache)
    r' evs b (k : nat) field f :
  Bind_body r = (r', evs, ok b) ->
  struct_fields (Target_type i) !! k = Some field ->
  Target_fields i !! k = Some f ->
  unsupplied r b (Tag field) ->
  Bind_record (fst (Bind r i fieldCache)) !! k = Some f.
Proof.
  intros Hb Hfield Hf Hun.
  rewrite (proj2 (Bind_with_map r i fieldCache _ _ _ Hb)).
  apply (Bind_fields_lookup_unchanged r b _ _ k field f Hfield Hf).
  now rewrite (Bind_field_unsupplied r b field f Hun).
Qed.

(** X11: when reading the body stream fails, [Bind] returns that error
    under "error reading request body: ", has not replaced the stream, has
    bound no field and has not invoked [Validate]. *)
Theorem Bind_read_error r (i : Target) (fieldCache : Cache) rd e :
  Body r = Some rd -> read_error rd = Some e -> ContentLength r > 0 ->
  Bind_error (fst (Bind r i fieldCache))
  = Some (wrapError "error reading request body: " e)
  /\ Bind_record (fst (Bind r i fieldCache)) = Target_fields i
  /\ Bind_events (fst (Bind r i fieldCache)) = [EvReadBody]
  /\ Body (Bind_request (fst (Bind r i fieldCache)))
     = Some {| unread := []; read_error := Some e |}.
Proof.
  intros HBody Hread Hlen. unfold Bind, Bind_body, ReadAll. rewrite HBody, Hread.
  destruct (Z.gtb_spec (ContentLength r) 0) as [_|Hle]; [|lia].
  repeat split.
Qed.

(** X12: a JSON null for a pointer field that is nil.  Without omitEmpty
    [Bind] allocates the pointer and leaves the pointee at its zero value;
    with omitEmpty the field stays nil.  Either way there is no error. *)
Theorem Bind_field_null_into_pointer r b field (e : typ) (v : string) :
  Type_ field = TPtr e ->
  Spec.winning_marker (Tag field) = Some (body, v)
  \/ Spec.winning_marker (Tag field) = Some (jjson, v) ->
  b !! v = Some VNil ->
  Bind_field r b field (GPtr None)
  = if Bind_omitEmpty (Tag field) then (GPtr None, None)
    else (GPtr (Some (zero e)), None).
Proof.
  intros Ht Hw Hv. rewrite Bind_field_by_resolve.
  assert (Hres : Bind_resolve r b (Tag field) = Some (VNil, true)).
  { destruct Hw as [Hw|Hw]; rewrite (Bind_resolve_of_winner r b _ _ _ Hw);
      destruct (Bind_resolve_lookup_key r b v (winning_marker_value_nonempty _ _ _ Hw))
        as (_ & _ & Hb & Hj & _); rewrite ?Hb, ?Hj, Hv; reflexivity. }
  rewrite Hres, Ht. cbn [negb orb isEmptyValue andb].
  rewrite andb_true_r.
  destruct (Bind_omitEmpty (Tag field)); [reflexivity|].
  cbn [init_nil]. destruct (struct_or_ptr_to_struct (TPtr e)); now rewrite setField_nil.
Qed.

(** X13: on a field read from the path or from the query string, omitEmpty
    and the losing markers change nothing: two fields of the same name and
    type are bound alike when both are won by [path] with the same value,
    or both by [query] with the same key name. *)
Theorem Bind_field_path_query_ignore_omitEmpty r b field field' f (v v' : string) :
  Name field = Name field' -> Type_ field = Type_ field' ->
  (Spec.winning_marker (Tag field) = Some (path, v)
   /\ Spec.winning_marker (Tag field') = Some (path, v))
  \/ (Spec.winning_marker (Tag field) = Some (query, v)
      /\ Spec.winning_marker (Tag field') = Some (query, v')
      /\ Spec.key_name v = Spec.key_name v') ->
  Bind_field r b field f = Bind_field r b field' f.
Proof.
  intros Hn Ht Hw. rewrite !Bind_field_by_resolve, Hn, Ht.
  destruct Hw as [[Hw Hw']|(Hw & Hw' & Hk)].
  - rewrite (Bind_resolve_of_winner r b _ _ _ Hw), (Bind_resolve_of_winner r b _ _ _ Hw').
    rewrite (proj1 (Bind_resolve_lookup_key r b v (winning_marker_value_nonempty _ _ _ Hw))).
    destruct (String.eqb_spec (PathValue r v) "") as [->|Hne]; [reflexivity|].
    cbn [negb orb isEmptyValue].
    assert (Hlen : (String.length (PathValue r v) =? 0)%nat = false).
    { destruct (PathValue r v); [congruence|reflexivity]. }
    now rewrite Hlen, !andb_false_r.
  - rewrite (Bind_resolve_of_winner r b _ _ _ Hw), (Bind_resolve_of_winner r b _ _ _ Hw').
    destruct (Bind_resolve_lookup_key r b v (winning_marker_value_nonempty _ _ _ Hw))
      as (_ & -> & _).
    destruct (Bind_resolve_lookup_key r b v' (winning_marker_value_nonempty _ _ _ Hw'))
      as (_ & -> & _).
    rewrite <- Hk.
    destruct (String.eqb_spec (Values_Get (URL_Query r) (Spec.key_name v)) "")
      as [->|Hne]; [reflexivity|].
    cbn [negb orb isEmptyValue].
    assert (Hlen : (String.length (Values_Get (URL_Query r) (Spec.key_name v)) =? 0)%nat
                   = false).
    { destruct (Values_Get _ _); [congruence|reflexivity]. }
    now rewrite Hlen, !andb_false_r.
Qed.

End BindEdges.

Section Parsing.

Context {std : GoStd} {usr : UserMethods}.

Implicit Types (r : Request) (b : gmap string value) (tag : StructTag).

(** ** Separators *)

Lemma Contains_byte_cons (c sep : ascii) (s : string) :
  strings.Contains (String c s) (String sep "")
  = if Ascii.eqb c sep then true else strings.Contains s (String sep "").
Proof.
  cbn [strings.Contains String.prefix].
  destruct (ascii_dec sep c) as [Heq|Hne];
    destruct (Ascii.eqb_spec c sep) as [Heq'|Hne']; try congruence;
    try reflexivity; now destruct s.
Qed.

Lemma Split_app_sep (h rest : string) (sep : ascii) :
  strings.Contains h (String sep "") = false ->
  strings.Split (h ++ String sep rest) sep = h :: strings.Split rest sep.
Proof.
  induction h as [|c h IH]; intros Hno.
  - change ("" ++ String sep rest) with (String sep rest).
    cbn [strings.Split]. now rewrite Ascii.eqb_refl.
  - rewrite Contains_byte_cons in Hno.
    change (String c h ++ String sep rest) with (String c (h ++ String sep rest)).
    cbn [strings.Split].
    destruct (Ascii.eqb c sep); [discriminate|]. now rewrite (IH Hno).
Qed.

Lemma Split_no_sep (h : string) (sep : ascii) :
  strings.Contains h (String sep "") = false -> strings.Split h sep = [h].
Proof.
  induction h as [|c h IH]; intros Hno; [reflexivity|].
  rewrite Contains_byte_cons in Hno. cbn [strings.Split].
  destruct (Ascii.eqb c sep); [discriminate|]. now rewrite (IH Hno).
Qed.

Lemma key_name_app (k mods : string) :
  strings.Contains k "," = false -> Spec.key_name (k ++ "," ++ mods) = k.
Proof.
  intros Hno. unfold Spec.key_name.
  change (k ++ "," ++ mods) with (k ++ String ","%char mods).
  now rewrite (Split_app_sep k mods _ Hno).
Qed.

Lemma key_name_plain (k : string) :
  strings.Contains k "," = false -> Spec.key_name k = k.
Proof. intros Hno. unfold Spec.key_name. now rewrite (Split_no_sep k _ Hno). Qed.

(** X14: on a query field, what follows the first comma of the marker
    value does not change which parameter is read: [query:"k,mods"]
    resolves as [query:"k"] does. *)
Theorem Bind_query_modifiers_cut r b (k mods : string) :
  k <> "" -> strings.Contains k "," = false ->
  Bind_resolve r b [(query, k ++ "," ++ mods)] = Bind_resolve r b [(query, k)]
  /\ Bind_resolve r b [(query, k)]
     = Some (VString (Values_Get (URL_Query r) k),
             negb (String.eqb (Values_Get (URL_Query r) k) "")).
Proof.
  intros Hk Hno.
  assert (Hkm : k ++ "," ++ mods <> "") by (destruct k; [congruence|discriminate]).
  destruct (Bind_resolve_lookup_key r b _ Hkm) as (_ & -> & _).
  destruct (Bind_resolve_lookup_key r b _ Hk) as (_ & -> & _).
  now rewrite (key_name_app k mods Hno), (key_name_plain k Hno).
Qed.

(** X15: the content type is decided by the first part of the header, up
    to a semicolon, that holds no equals sign once trimmed: it is returned
    trimmed and lower-cased and whatever follows it is ignored; a part with
    an equals sign is skipped, and a header with such parts only gives the
    empty string. *)
Theorem parseContentType_first_plain_part (h rest : string) :
  strings.Contains h ";" = false ->
  parseContentType (h ++ ";" ++ rest)
  = (if strings.Contains (TrimSpace h) "=" then parseContentType rest
     else ToLower (TrimSpace h))
  /\ parseContentType h
     = (if strings.Contains (TrimSpace h) "=" then "" else ToLower (TrimSpace h)).
Proof.
  intros Hno. unfold parseContentType.
  change (h ++ ";" ++ rest) with (h ++ String ";"%char rest).
  rewrite (Split_app_sep h rest _ Hno), (Split_no_sep h _ Hno).
  cbn [first_plain_part]. split; now destruct (strings.Contains (TrimSpace h) "=").
Qed.

End Parsing.

Section FieldCache.

Implicit Types (t : typ) (fieldCache : Cache) (info : gmap string fieldInfo).

Lemma Cache_store_miss t fieldCache info :
  Cache_lookup fieldCache t = None ->
  Cache_store fieldCache t info = (t, info) :: fieldCache.
Proof.
  intros Hmiss. unfold Cache_store. f_equal.
  induction fieldCache as [|[t0 i0] c IH]; [reflexivity|].
  cbn [Cache_lookup] in Hmiss. cbn [List.filter fst].
  destruct (typ_eqb t0 t); [discriminate|]. cbn [negb]. now rewrite (IH Hmiss).
Qed.

(** X16: [getFieldInfo] is a look-up with insertion.  The entry it returns
    for a type is the entry that the cache holds for the type afterwards,
    a second call returns the same entry and leaves the cache alone, and
    the entry of every other type is what it was before. *)
Theorem getFieldInfo_cache_round_trip t fieldCache :
  Cache_lookup (snd (getFieldInfo t fieldCache)) t = Some (fst (getFieldInfo t fieldCache))
  /\ getFieldInfo t (snd (getFieldInfo t fieldCache)) = getFieldInfo t fieldCache
  /\ forall t', typ_eqb t t' = false ->
       Cache_lookup (snd (getFieldInfo t fieldCache)) t' = Cache_lookup fieldCache t'.
Proof.
  destruct (Cache_lookup fieldCache t) as [info|] eqn:Hlook.
  - assert (Hg : getFieldInfo t fieldCache = (info, fieldCache)).
    { unfold getFieldInfo. now rewrite Hlook. }
    rewrite Hg. cbn [fst snd]. auto.
  - assert (Hg : getFieldInfo t fieldCache
                 = (getFieldInfo_fields (struct_fields t) 0 ∅,
                    (t, getFieldInfo_fields (struct_fields t) 0 ∅) :: fieldCache)).
    { unfold getFieldInfo. now rewrite Hlook, (Cache_store_miss _ _ _ Hlook). }
    rewrite Hg. cbn [fst snd]. split; [cbn [Cache_lookup]; now rewrite typ_eqb_refl|].
    split.
    + unfold getFieldInfo. cbn [Cache_lookup]. now rewrite typ_eqb_refl.
    + intros t' Hne. cbn [Cache_lookup]. now rewrite Hne.
Qed.

Lemma getFieldInfo_fields_other (fs : list StructField) (i : Z) info (name : string) :
  ~ In name (map Name fs) ->
  getFieldInfo_fields fs i info !! name = info !! name.
Proof.
  revert i info. induction fs as [|fd fs IH]; intros i info Hnot; [reflexivity|].
  cbn [getFieldInfo_fields]. rewrite IH by (intros H; apply Hnot; now right).
  rewrite getFieldInfo_field_winner.
  destruct (Spec.winning_marker (Tag fd)) as [[m v]|]; [|reflexivity].
  apply lookup_insert_ne. intros Heq. apply Hnot. now left.
Qed.

Lemma getFieldInfo_fields_lookup (fs : list StructField) (i : Z) info (k : nat)
    (fd : StructField) :
  List.NoDup (map Name fs) ->
  fs !! k = Some fd ->
  getFieldInfo_fields fs i info !! Name fd
  = match Spec.winning_marker (Tag fd) with
    | Some (m, v) => Some (fieldInfo_of (i + Z.of_nat k) fd m v)
    | None => info !! Name fd
    end.
Proof.
  revert i info k. induction fs as [|fd0 fs IH]; intros i info k Hnd Hk;
    [discriminate|].
  cbn [map] in Hnd. apply List.NoDup_cons_iff in Hnd as [Hnot Hnd].
  cbn [getFieldInfo_fields]. destruct k as [|k]; cbn in Hk.
  - injection Hk as ->. rewrite (getFieldInfo_fields_other _ _ _ _ Hnot).
    rewrite getFieldInfo_field_winner, Z.add_0_r.
    destruct (Spec.winning_marker (Tag fd)) as [[m v]|]; [|reflexivity].
    apply lookup_insert_eq.
  - rewrite (IH (i + 1) _ k Hnd Hk).
    replace (i + 1 + Z.of_nat k) with (i + Z.of_nat (S k)) by lia.
    destruct (Spec.winning_marker (Tag fd)) as [[m v]|]; [reflexivity|].
    rewrite getFieldInfo_field_winner.
    destruct (Spec.winning_marker (Tag fd0)) as [[m0 v0]|]; [|reflexivity].
    apply lookup_insert_ne. intros Heq. apply Hnot. rewrite Heq.
    apply in_map. apply list_elem_of_In. eapply list_elem_of_lookup_2. exact Hk.
Qed.

(** X17: for a record type with distinct field names that the cache has
    not seen, [getFieldInfo] returns exactly one entry per field with a
    recognized marker: under the field's name, with the field's position,
    the winning source, the whole value of the winning marker (modifiers
    included) and its omitempty test.  A field without a recognized marker,
    and a name that is not a field's, have no entry. *)
Theorem getFieldInfo_entries t fieldCache :
  Cache_lookup fieldCache t = None ->
  List.NoDup (map Name (struct_fields t)) ->
  (forall (k : nat) fd, struct_fields t !! k = Some fd ->
     fst (getFieldInfo t fieldCache) !! Name fd
     = match Spec.winning_marker (Tag fd) with
       | Some (m, v) =>
           Some {| Index := Z.of_nat k; FieldType := fd; Source := m; TagName := v;
                   OmitEmpty := strings.Contains v "omitempty" |}
       | None => None
       end)
  /\ (forall name, ~ In name (map Name (struct_fields t)) ->
       fst (getFieldInfo t fieldCache) !! name = None).
Proof.
  intros Hmiss Hnd. unfold getFieldInfo. rewrite Hmiss. cbn [fst]. split.
  - intros k fd Hk. rewrite (getFieldInfo_fields_lookup _ 0 ∅ k fd Hnd Hk).
    destruct (Spec.winning_marker (Tag fd)) as [[m v]|]; [reflexivity|].
    apply lookup_empty.
  - intros name Hnot. rewrite (getFieldInfo_fields_other _ _ _ _ Hnot).
    apply lookup_empty.
Qed.

End FieldCache.

Section Nested.

Context {std : GoStd} {usr : UserMethods}.

Implicit Types (r : Request) (b : gmap string value) (tag : StructTag).
Implicit Types (field : StructField) (f g : gval) (vals : list gval).

(** X18: [BindStruct] stops at the first sub-field that cannot be set.  The
    sub-fields before it hold what the loop gave them, the sub-fields
    after it are untouched, and the error wraps the cause under the name of
    the sub-field. *)
Theorem BindStruct_stops_at_first_failure (data : gmap string value)
    (fs1 fs2 : list StructField) (fd : StructField)
    (vals1 vals2 vals1' : list gval) g g' (v : value) e :
  length fs1 = length vals1 ->
  BindStruct_fields fs1 vals1 data = (vals1', None) ->
  nested_tag (Tag fd) <> "" ->
  data !! nested_tag (Tag fd) = Some v ->
  setField (Type_ fd) (init_nil (Type_ fd) g) v = (g', Some e) ->
  BindStruct (TStruct (fs1 ++ fd :: fs2)%list) (GStruct (vals1 ++ g :: vals2)%list) data
  = (GStruct (vals1' ++ g' :: vals2)%list,
     Some (wrapError ("error setting nested field " ++ Name fd ++ ": ") e)).
Proof.
  intros Hlen Hpre Htag Hv Hfail. unfold BindStruct. cbn [struct_fields].
  assert (Hloop : BindStruct_fields (fs1 ++ fd :: fs2)%list (vals1 ++ g :: vals2)%list data
                  = ((vals1' ++ g' :: vals2)%list,
                     Some (wrapError ("error setting nested field " ++ Name fd ++ ": ") e))).
  { revert vals1 vals1' Hlen Hpre.
    induction fs1 as [|fd1 fs1 IH]; intros [|g1 vals1] vals1' Hlen Hpre;
      try discriminate.
    - cbn in Hpre. injection Hpre as <-. cbn [app BindStruct_fields].
      rewrite (proj2 (String.eqb_neq _ _) Htag), Hv, Hfail. reflexivity.
    - cbn [app BindStruct_fields] in *.
      match goal with
      | H : context [let '(_, _) := ?X in match _ with _ => _ end] |- _ =>
          destruct X as [g1' [e1|]]; [discriminate|]
      end.
      destruct (BindStruct_fields fs1 vals1 data) as [vals1'' oe] eqn:Hrest.
      injection Hpre as <- ->.
      rewrite (IH vals1 vals1''); auto. }
  now rewrite Hloop.
Qed.

Lemma Bind_fields_all_unsupplied r b (fs : list StructField) vals :
  Forall (fun fd => unsupplied r b (Tag fd)) fs ->
  Bind_fields r b fs vals = (vals, None).
Proof.
  intros H. revert vals. induction H as [|fd fs Hfd _ IH]; intros [|g vals];
    try reflexivity.
  cbn [Bind_fields]. now rewrite (Bind_field_unsupplied r b fd g Hfd), IH.
Qed.

(** X19: the example's [createUser].  [Bind] into a fresh
    [CreateUserRequest] never succeeds on a body map without the key
    "name"; and when the map has none of the four keys (no body, a body
    that does not decode) the error is "validation failed: name is
    required". *)
Theorem createUser_requires_name r (fieldCache : Cache) r' evs b :
  Bind_body r = (r', evs, ok b) ->
  b !! "name" = None ->
  (exists e, Bind_error (fst (Bind r Example.CreateUserRequest fieldCache)) = Some e)
  /\ (b !! "email" = None -> b !! "active" = None -> b !! "tags" = None ->
      Bind_error (fst (Bind r Example.CreateUserRequest fieldCache))
      = Some (wrapError "validation failed: " (errorString "name is required"))).
Proof.
  intros Hb Hname.
  destruct (Bind_with_map r Example.CreateUserRequest fieldCache _ _ _ Hb) as [He _].
  assert (Hun : forall key : string, b !! key = None ->
                  unsupplied r b [("body", key)]).
  { intros key Hkey. destruct key as [|c key]; [left; reflexivity|].
    right. right. right. left. eexists. split; [left; reflexivity|exact Hkey]. }
  split.
  - rewrite He.
    destruct (snd (Bind_fields r b _ _)) as [e|] eqn:Hloop; [eauto|].
    pose proof (Bind_fields_lookup_unchanged r b
                  (struct_fields (Target_type Example.CreateUserRequest))
                  (Target_fields Example.CreateUserRequest) 0
                  (Example.field "Name" [("body", "name")] TString) (GString "")
                  eq_refl eq_refl) as Hkeep.
    rewrite (Bind_field_unsupplied r b
               (Example.field "Name" [("body", "name")] TString) (GString "")
               (Hun "name" Hname)) in Hkeep.
    specialize (Hkeep eq_refl).
    unfold Bind_validate. cbn [Target_Validate Example.CreateUserRequest fst].
    unfold Example.CreateUserRequest_Validate, Example.string_at.
    rewrite Hkeep. cbn. eauto.
  - intros Hemail Hactive Htags. rewrite He.
    rewrite (Bind_fields_all_unsupplied r b).
    + reflexivity.
    + cbn [struct_fields Target_type Example.CreateUserRequest
             Example.CreateUserRequest_type].
      repeat (apply Forall_cons_2; [cbn [Tag Example.field]; apply Hun; assumption|]).
      apply Forall_nil_2.
Qed.

(** X20: the example's [updateUser].  Whatever JSON object the body holds,
    its keys being free of commas, [Bind] leaves [Name], [Email], [Active]
    and [Tags] of a fresh [UpdateUserRequest] as they were: the markers
    [body:"name,omitempty"] and the like are looked up with their modifier
    and match no key. *)
Theorem updateUser_binds_no_body_field r (fieldCache : Cache) r' evs b (k : nat) :
  Bind_body r = (r', evs, ok b) ->
  (forall (key : string) v, b !! key = Some v -> strings.Contains key "," = false) ->
  (1 <= k <= 4)%nat ->
  Bind_record (fst (Bind r Example.UpdateUserRequest fieldCache)) !! k
  = Target_fields Example.UpdateUserRequest !! k.
Proof.
  intros Hb Hkeys Hk.
  rewrite (proj2 (Bind_with_map r Example.UpdateUserRequest fieldCache _ _ _ Hb)).
  assert (Hun : forall key : string, strings.Contains key "," = true -> key <> "" ->
                  unsupplied r b [("body", key)]).
  { intros key Hc Hne. right. right. right. left. exists key. split.
    - left. unfold Spec.winning_marker. cbn.
      now rewrite (proj2 (String.eqb_neq _ _) Hne).
    - destruct (b !! key) as [v|] eqn:Hv; [|reflexivity].
      rewrite (Hkeys key v Hv) in Hc. discriminate. }
  destruct k as [|[|[|[|[|k]]]]]; try lia;
    (eapply Bind_fields_lookup_unchanged; [reflexivity|reflexivity|];
     rewrite Bind_field_unsupplied; [reflexivity|];
     apply Hun; [reflexivity|discriminate]).
Qed.

End Nested.

Section NestedFrame.

Context {std : GoStd} {usr : UserMethods}.

Implicit Types (r : Request) (b : gmap string value) (tag : StructTag).
Implicit Types (f g : gval) (vals : list gval).

Lemma setStruct_field_untagged (structMap : gmap string value) (fd : StructField) g :
  nested_tag (Tag fd) = "" \/ structMap !! nested_tag (Tag fd) = None ->
  setStruct_field structMap fd g = (g, None).
Proof.
  intros H. unfold setStruct_field.
  destruct (String.eqb_spec (nested_tag (Tag fd)) "") as [_|Hne]; [reflexivity|].
  destruct H as [H|H]; [contradiction|]. now rewrite H.
Qed.

Lemma setStruct_assign_lookup_unchanged (structMap : gmap string value)
    (fs : list StructField) vals (k : nat) (fd : StructField) g :
  fs !! k = Some fd -> vals !! k = Some g ->
  setStruct_field structMap fd g = (g, None) ->
  fst (setStruct_assign structMap fs vals) !! k = Some g.
Proof.
  revert vals k. induction fs as [|fd1 fs IH]; intros [|g1 vals] k Hfs Hvals Hsame;
    try discriminate.
  cbn [setStruct_assign].
  destruct k as [|k]; cbn in Hfs, Hvals.
  - injection Hfs as ->. injection Hvals as ->. rewrite Hsame.
    destruct (setStruct_assign structMap fs vals); reflexivity.
  - destruct (setStruct_field structMap fd1 g1) as [g1' [e1|]]; [exact Hvals|].
    specialize (IH vals k Hfs Hvals Hsame).
    destruct (setStruct_assign structMap fs vals); exact IH.
Qed.

Lemma BindStruct_fields_lookup_unchanged (data : gmap string value)
    (fs : list StructField) vals (k : nat) (fd : StructField) g :
  fs !! k = Some fd -> vals !! k = Some g ->
  nested_tag (Tag fd) = "" \/ data !! nested_tag (Tag fd) = None ->
  fst (BindStruct_fields fs vals data) !! k = Some g.
Proof.
  revert vals k. induction fs as [|fd1 fs IH]; intros [|g1 vals] k Hfs Hvals Hun;
    try discriminate.
  cbn [BindStruct_fields].
  destruct k as [|k]; cbn in Hfs, Hvals.
  - injection Hfs as ->. injection Hvals as ->.
    destruct (String.eqb_spec (nested_tag (Tag fd)) "") as [_|Hne].
    + destruct (BindStruct_fields fs vals data); reflexivity.
    + destruct Hun as [Hun|Hun]; [contradiction|]. rewrite Hun.
      destruct (BindStruct_fields fs vals data); reflexivity.
  - specialize (IH vals k Hfs Hvals Hun).
    destruct (String.eqb (nested_tag (Tag fd1)) "");
      [destruct (BindStruct_fields fs vals data); exact IH|].
    destruct (data !! nested_tag (Tag fd1)) as [nestedValue|];
      [|destruct (BindStruct_fields fs vals data); exact IH].
    destruct (setField _ _ nestedValue) as [g1' [e1|]]; [exact Hvals|].
    destruct (BindStruct_fields fs vals data); exact IH.
Qed.

(** X21: inside a nested record only the [body] and [json] markers count.
    A sub-field without either of them (whatever its [path], [query] or
    [cookie] marker), and a sub-field whose key the nested map lacks, keeps
    its content, wherever the loop stops: both when [Bind] hands the record
    to [BindStruct] and when [setField] hands it to [setStruct]. *)
Theorem nested_binding_leaves_untagged (data : gmap string value)
    (fs : list StructField) vals (k : nat) (fd : StructField) g :
  fs !! k = Some fd -> vals !! k = Some g ->
  nested_tag (Tag fd) = "" \/ data !! nested_tag (Tag fd) = None ->
  (exists vals', fst (BindStruct (TStruct fs) (GStruct vals) data) = GStruct vals'
                 /\ vals' !! k = Some g)
  /\ (exists vals', fst (setField (TStruct fs) (GStruct vals) (VMap data)) = GStruct vals'
                    /\ vals' !! k = Some g).
Proof.
  intros Hfs Hvals Hun. split.
  - unfold BindStruct. cbn [struct_fields].
    pose proof (BindStruct_fields_lookup_unchanged data fs vals k fd g Hfs Hvals Hun) as H.
    destruct (BindStruct_fields fs vals data) as [vals' oe]. eauto.
  - rewrite setStruct_by_assign.
    pose proof (setStruct_assign_lookup_unchanged data fs vals k fd g Hfs Hvals
                  (setStruct_field_untagged data fd g Hun)) as H.
    destruct (setStruct_assign data fs vals) as [vals' oe]. eauto.
Qed.

(** X22: the order of what [Bind] does.  The body stream is read at most
    once, and only when it is present with a positive declared length; it
    is replaced only after a read that succeeded, once, by a buffer over the
    bytes read, and a failed read leaves the drained stream in the request.
    [Validate] is invoked at most once, after everything else, on the
    record that [Bind] leaves, and exactly when the target has the method,
    the read (if any) succeeded and every field was bound without error. *)
Theorem Bind_event_order r (i : Target) (fieldCache : Cache) :
  Bind_events (fst (Bind r i fieldCache))
  = (match Body r with
     | Some rd =>
         if ContentLength r >? 0 then
           match read_error rd with
           | Some _ => [EvReadBody]
           | None => [EvReadBody; EvSetBody (unread rd)]
           end
         else []
     | None => []
     end
     ++ match Target_Validate i, snd (Bind_body r) with
        | Some _, ok b =>
            match snd (Bind_fields r b (struct_fields (Target_type i)) (Target_fields i)) with
            | None => [EvValidate (GStruct (Bind_record (fst (Bind r i fieldCache))))]
            | Some _ => []
            end
        | _, _ => []
        end)%list
  /\ Bind_request (fst (Bind r i fieldCache))
     = match Body r with
       | Some rd =>
           if ContentLength r >? 0 then
             match read_error rd with
             | Some _ => set_Body r (Some {| unread := []; read_error := read_error rd |})
             | None => set_Body r (Some (NewBuffer (unread rd)))
             end
           else r
       | None => r
       end
  /\ ((exists e, snd (Bind_body r) = err e)
      <-> exists rd, Body r = Some rd /\ ContentLength r > 0 /\ read_error rd <> None).
Proof.
  assert (Hr : forall b fs vals, Bind_fields (fst (fst (Bind_body r))) b fs vals
                                 = Bind_fields r b fs vals).
  { intros b fs vals. unfold Bind_body. destruct (Body r) as [rd|]; [|reflexivity].
    destruct (ContentLength r >? 0); [|reflexivity].
    cbn. destruct (read_error rd); cbn; apply Bind_fields_set_Body. }
  assert (Hevs : snd (fst (Bind_body r))
                 = match Body r with
                   | Some rd =>
                       if ContentLength r >? 0 then
                         match read_error rd with
                         | Some _ => [EvReadBody]
                         | None => [EvReadBody; EvSetBody (unread rd)]
                         end
                       else []
                   | None => []
                   end).
  { unfold Bind_body. destruct (Body r) as [rd|]; [|reflexivity].
    destruct (ContentLength r >? 0); [|reflexivity].
    cbn. destruct (read_error rd); reflexivity. }
  split; [|split].
  - rewrite <- Hevs. unfold Bind.
    destruct (Bind_body r) as [[r' evs] [b|e]]; cbn [fst snd] in *.
    + specialize (Hr b (struct_fields (Target_type i)) (Target_fields i)).
      rewrite <- Hr.
      destruct (Bind_fields r' b _ _) as [vals [e|]]; cbn [fst snd Bind_events].
      * destruct (Target_Validate i); now rewrite app_nil_r.
      * unfold Bind_validate. destruct (Target_Validate i) as [validate|];
          cbn [fst snd Bind_events Bind_record]; [reflexivity|now rewrite app_nil_r].
    + cbn [Bind_events]. destruct (Target_Validate i); now rewrite app_nil_r.
  - rewrite Bind_request_is_Bind_body. unfold Bind_body.
    destruct (Body r) as [rd|]; [|reflexivity].
    destruct (ContentLength r >? 0); [|reflexivity].
    cbn. destruct (read_error rd); reflexivity.
  - unfold Bind_body. destruct (Body r) as [rd|].
    + destruct (Z.gtb_spec (ContentLength r) 0) as [Hgt|Hle].
      * cbn. destruct (read_error rd) as [e|] eqn:Hre; cbn.
        -- split; [|eauto]. intros _. exists rd. rewrite Hre.
           split; [reflexivity|]. split; [lia|discriminate].
        -- split; [|intros (rd' & [= <-] & _ & Hne); now rewrite Hre in Hne].
           intros [e He]. destruct (parseBody _); discriminate.
      * cbn. split; [intros [e He]; discriminate|].
        intros (rd' & _ & Hgt & _). lia.
    + cbn. split; [intros [e He]; discriminate|].
      intros (rd' & Hrd & _). discriminate.
Qed.

End NestedFrame.


Section TextMethods.

Context {std : GoStd} {usr : UserMethods}.


End TextMethods.


(** * The further properties on concrete inputs *)

Section CoverageExamples.

#[local] Existing Instance Demo.std.
#[local] Existing Instance Demo.usr.

(** 100 fits an [int8] field, 200 does not. *)
Lemma setInt_stores_in_range_witness :
  setField (TInt Int8) (GInt 0) (VInt Int 100) = (GInt 100, None)
  /\ wrap_int Int8 200 <> 200.
Proof.
  destruct (setInt_stores_in_range Int8 Int (GInt 0) 100) as (H1 & _ & _ & H4 & _).
  destruct (setInt_stores_in_range Int8 Int (GInt 0) 200) as (_ & _ & _ & _ & H5).
  rewrite (H4 eq_refl) in H1. split; [exact H1|exact (H5 eq_refl)].
Defined.

(** -5 as [int] and as [float64], and 300, into a [uint8] field. *)
Lemma setUint_never_negative_witness :
  setUint Uint8 (GUint 7) (VInt Int (-5))
  = (GUint 7, Some (errorString "cannot convert negative int to uint"))
  /\ setUint Uint8 (GUint 7) (VFloat64 (-5))
     = (GUint 7, Some (errorString "cannot convert negative float to uint"))
  /\ (exists n, GUint 44 = GUint n /\ uint_in_range Uint8 n = true)
  /\ GUint 7 = GUint 7.
Proof.
  destruct (setUint_never_negative Uint8 (GUint 7) (VInt Int 300) (GUint 44))
    as (H1 & H2 & H3 & _).
  destruct (setUint_never_negative Uint8 (GUint 7) (VString "x") (GUint 7))
    as (_ & _ & _ & H4).
  split; [apply H1; lia|]. split; [apply H2; reflexivity|].
  split; [apply H3; reflexivity|].
  apply (H4 (Demo.syntax_error "ParseUint" "x")). reflexivity.
Defined.

(** [[13, 24, "35"]] into [[]int]. *)
Lemma setSlice_elementwise_witness :
  setField (TSlice (TInt Int)) (GSlice None)
    (VSlice [VFloat64 13; VFloat64 24; VString "35"])
  = (GSlice (Some [GInt 13; GInt 24; GInt 35]), None).
Proof.
  rewrite (setSlice_elementwise (TInt Int) (GSlice None)
             [VFloat64 13; VFloat64 24; VString "35"]).
  - vm_compute. reflexivity.
  - repeat constructor.
Defined.

(** [[1, "x", 3]] into [[]int]. *)
Lemma setSlice_first_bad_element_witness :
  setField (TSlice (TInt Int)) (GSlice (Some [GInt 9]))
    (VSlice [VFloat64 1; VString "x"; VFloat64 3])
  = (GSlice (Some [GInt 9]),
     Some (wrapError "error setting slice element at index 1: "
             (Demo.syntax_error "ParseInt" "x"))).
Proof.
  apply (setSlice_first_bad_element (TInt Int) (GSlice (Some [GInt 9]))
           [VFloat64 1] [VFloat64 3] (VString "x") (Demo.syntax_error "ParseInt" "x")).
  - repeat constructor.
  - reflexivity.
Defined.

(** "x" into an [int] field holding 5. *)
Lemma setField_failure_leaves_field_witness :
  setField (TInt Int) (GInt 5) (VString "x")
  = (GInt 5, Some (Demo.syntax_error "ParseInt" "x"))
  /\ GInt 5 = GInt 5.
Proof.
  split; [reflexivity|].
  apply (setField_failure_leaves_field (TInt Int) (GInt 5) (VString "x") (GInt 5)
           (Demo.syntax_error "ParseInt" "x")); reflexivity.
Defined.

(** [tags=a] and [tags=a&tags=b] into [Tags []string]. *)
Lemma setSlice_of_form_value_witness :
  setField (TSlice TString) (GSlice None) (form_value ["a"])
  = (GSlice (Some [GString "a"]), None)
  /\ setField (TSlice TString) (GSlice None) (form_value ["a"; "b"])
     = (GSlice None, Some (errorString "cannot convert []string to slice")).
Proof.
  split.
  - apply (proj1 (setSlice_of_form_value TString (GSlice None) ["a"]) "a");
      reflexivity.
  - apply (proj2 (setSlice_of_form_value TString (GSlice None) ["a"; "b"])).
    cbn. lia.
Defined.

(** [[200]] into [[]int8]. *)
Lemma setField_has_type_witness :
  has_type (TSlice (TInt Int8))
    (fst (setField (TSlice (TInt Int8)) (GSlice None) (VSlice [VFloat64 200]))) = true.
Proof.
  apply (setField_has_type (TSlice (TInt Int8)) (GSlice None) (VSlice [VFloat64 200]));
    reflexivity.
Defined.

(** The record with the cookie that is not a number. *)
Lemma Bind_keeps_record_typed_witness :
  has_type Demo.session_type
    (GStruct (Bind_record
                (fst (Bind (Demo.request "application/json" Demo.doc_email)
                        Demo.session [])))) = true.
Proof.
  apply (Bind_keeps_record_typed (Demo.request "application/json" Demo.doc_email)
           Demo.session []); reflexivity.
Defined.

(** [Email string `body:"email,omitempty"`]: the body map has no such key. *)
Lemma Bind_leaves_unsupplied_field_witness :
  Bind_record (fst (Bind (Demo.request "application/json" Demo.doc_email)
                      (Demo.user None) [])) !! 1%nat
  = Some (GString "").
Proof.
  apply (Bind_leaves_unsupplied_field
           (Demo.request "application/json" Demo.doc_email) (Demo.user None) []
           (Demo.request "application/json" Demo.doc_email)
           [EvReadBody; EvSetBody (list_byte_of_string Demo.doc_email)]
           {[ "email" := VString "a@b.io" ]} 1
           (Demo.field "Email" [("body", "email,omitempty")] TString) (GString ""));
    try reflexivity.
  right. right. right. left. exists "email,omitempty".
  split; [left; reflexivity|reflexivity].
Defined.

(** A body stream that breaks after 18 bytes. *)
Lemma Bind_read_error_witness :
  let r := set_Body (Demo.request "application/json" Demo.doc_email)
             (Some {| unread := list_byte_of_string Demo.doc_email;
                      read_error := Some (errorString "unexpected EOF") |}) in
  Bind_error (fst (Bind r (Demo.user None) []))
  = Some (wrapError "error reading request body: " (errorString "unexpected EOF"))
  /\ Bind_record (fst (Bind r (Demo.user None) [])) = Target_fields (Demo.user None)
  /\ Bind_events (fst (Bind r (Demo.user None) [])) = [EvReadBody]
  /\ Body (Bind_request (fst (Bind r (Demo.user None) [])))
     = Some {| unread := []; read_error := Some (errorString "unexpected EOF") |}.
Proof.
  apply (Bind_read_error
           (set_Body (Demo.request "application/json" Demo.doc_email)
              (Some {| unread := list_byte_of_string Demo.doc_email;
                       read_error := Some (errorString "unexpected EOF") |}))
           (Demo.user None) []
           {| unread := list_byte_of_string Demo.doc_email;
              read_error := Some (errorString "unexpected EOF") |}
           (errorString "unexpected EOF")); reflexivity.
Defined.

(** [{"p":null}] into [P *bool `body:"p"`]. *)
Lemma Bind_field_null_into_pointer_witness :
  Bind_field (Demo.request "application/json" Demo.doc_email) {[ "p" := VNil ]}
    (Demo.field "P" [("body", "p")] (TPtr TBool)) (GPtr None)
  = (GPtr (Some (GBool false)), None).
Proof.
  apply (Bind_field_null_into_pointer
           (Demo.request "application/json" Demo.doc_email) {[ "p" := VNil ]}
           (Demo.field "P" [("body", "p")] (TPtr TBool)) TBool "p").
  - reflexivity.
  - left. reflexivity.
  - reflexivity.
Defined.

(** [query:"email,omitempty"] and [query:"email"]. *)
Lemma Bind_field_path_query_ignore_omitEmpty_witness :
  Bind_field (Demo.request "application/json" Demo.doc_email) ∅
    (Demo.field "Email" [("query", "email,omitempty")] TString) (GString "")
  = Bind_field (Demo.request "application/json" Demo.doc_email) ∅
      (Demo.field "Email" [("query", "email")] TString) (GString "").
Proof.
  apply (Bind_field_path_query_ignore_omitEmpty
           (Demo.request "application/json" Demo.doc_email) ∅
           (Demo.field "Email" [("query", "email,omitempty")] TString)
           (Demo.field "Email" [("query", "email")] TString) (GString "")
           "email,omitempty" "email").
  - reflexivity.
  - reflexivity.
  - right. repeat split; reflexivity.
Defined.

Lemma Bind_query_modifiers_cut_witness :
  Bind_resolve (Demo.request "application/json" Demo.doc_email) ∅
    [(query, "email" ++ "," ++ "omitempty")]
  = Bind_resolve (Demo.request "application/json" Demo.doc_email) ∅ [(query, "email")]
  /\ Bind_resolve (Demo.request "application/json" Demo.doc_email) ∅ [(query, "email")]
     = Some (VString "q@b.io", true).
Proof.
  apply (Bind_query_modifiers_cut (Demo.request "application/json" Demo.doc_email) ∅
           "email" "omitempty").
  - discriminate.
  - reflexivity.
Defined.

Lemma parseContentType_first_plain_part_witness :
  parseContentType (" Application/JSON " ++ ";" ++ " charset=utf-8") = "application/json"
  /\ parseContentType " Application/JSON " = "application/json".
Proof.
  destruct (parseContentType_first_plain_part " Application/JSON " " charset=utf-8"
              eq_refl) as [H1 H2].
  split; [rewrite H1|rewrite H2]; reflexivity.
Defined.

Lemma getFieldInfo_cache_round_trip_witness :
  Cache_lookup (snd (getFieldInfo Demo.user_type [])) Demo.session_type
  = Cache_lookup [] Demo.session_type.
Proof.
  apply (proj2 (proj2 (getFieldInfo_cache_round_trip Demo.user_type []))).
  reflexivity.
Defined.

Lemma getFieldInfo_entries_witness :
  fst (getFieldInfo Demo.user_type []) !! "Email"
  = Some {| Index := 1;
            FieldType := Demo.field "Email" [("body", "email,omitempty")] TString;
            Source := "body"; TagName := "email,omitempty"; OmitEmpty := true |}
  /\ fst (getFieldInfo Demo.user_type []) !! "Name" = None.
Proof.
  assert (Hnd : List.NoDup (map Name (struct_fields Demo.user_type))).
  { cbn. repeat constructor; cbn; intuition discriminate. }
  destruct (getFieldInfo_entries Demo.user_type [] eq_refl Hnd) as [Hin Hout].
  split.
  - exact (Hin 1%nat (Demo.field "Email" [("body", "email,omitempty")] TString) eq_refl).
  - apply Hout. cbn. intuition discriminate.
Defined.

(** [{"email":"a@b.io","count":"x"}] into a nested record. *)
Lemma BindStruct_stops_at_first_failure_witness :
  BindStruct
    (TStruct [Demo.field "NEmail" [("body", "email")] TString;
              Demo.field "Count" [("body", "count")] (TInt Int);
              Demo.field "Note" [("body", "note")] TString])
    (GStruct [GString ""; GInt 0; GString "old"])
    {[ "email" := VString "a@b.io"; "count" := VString "x"; "note" := VString "new" ]}
  = (GStruct [GString "a@b.io"; GInt 0; GString "old"],
     Some (wrapError "error setting nested field Count: "
             (Demo.syntax_error "ParseInt" "x"))).
Proof.
  apply (BindStruct_stops_at_first_failure
           {[ "email" := VString "a@b.io"; "count" := VString "x"; "note" := VString "new" ]}
           [Demo.field "NEmail" [("body", "email")] TString]
           [Demo.field "Note" [("body", "note")] TString]
           (Demo.field "Count" [("body", "count")] (TInt Int))
           [GString ""] [GString "old"] [GString "a@b.io"] (GInt 0) (GInt 0)
           (VString "x") (Demo.syntax_error "ParseInt" "x"));
    try reflexivity.
  discriminate.
Defined.

(** [POST /users] without a body. *)
Lemma createUser_requires_name_witness :
  let r := set_Body (Demo.request "application/json" Demo.doc_email) None in
  (exists e, Bind_error (fst (Bind r Example.CreateUserRequest [])) = Some e)
  /\ Bind_error (fst (Bind r Example.CreateUserRequest []))
     = Some (wrapError "validation failed: " (errorString "name is required")).
Proof.
  destruct (createUser_requires_name
              (set_Body (Demo.request "application/json" Demo.doc_email) None) []
              (set_Body (Demo.request "application/json" Demo.doc_email) None) [] ∅
              eq_refl eq_refl) as [H1 H2].
  split; [exact H1|]. apply H2; reflexivity.
Defined.

(** [PUT /users/7] with the body [{"email":"a@b.io"}]. *)
Lemma updateUser_binds_no_body_field_witness :
  Bind_record (fst (Bind (Demo.request "application/json" Demo.doc_email)
                      Example.UpdateUserRequest [])) !! 2%nat
  = Some (GString "").
Proof.
  apply (updateUser_binds_no_body_field
           (Demo.request "application/json" Demo.doc_email) []
           (Demo.request "application/json" Demo.doc_email)
           [EvReadBody; EvSetBody (list_byte_of_string Demo.doc_email)]
           {[ "email" := VString "a@b.io" ]} 2).
  - reflexivity.
  - intros key v H. apply lookup_singleton_Some in H as [<- _]. reflexivity.
  - lia.
Defined.

End CoverageExamples.

Section NestedFrameExamples.

#[local] Existing Instance Demo.std.
#[local] Existing Instance Demo.usr.

(** A sub-field marked [query:"note"] beside one that cannot be set. *)
Lemma nested_binding_leaves_untagged_witness :
  let fs := [Demo.field "Count" [("body", "count")] (TInt Int);
             Demo.field "Note" [("query", "note")] TString] in
  let data : gmap string value := {[ "count" := VString "x"; "note" := VString "new" ]} in
  (exists vals', fst (BindStruct (TStruct fs) (GStruct [GInt 0; GString "old"]) data)
                 = GStruct vals' /\ vals' !! 1%nat = Some (GString "old"))
  /\ (exists vals', fst (setField (TStruct fs) (GStruct [GInt 0; GString "old"]) (VMap data))
                    = GStruct vals' /\ vals' !! 1%nat = Some (GString "old")).
Proof.
  apply (nested_binding_leaves_untagged
           {[ "count" := VString "x"; "note" := VString "new" ]}
           [Demo.field "Count" [("body", "count")] (TInt Int);
            Demo.field "Note" [("query", "note")] TString]
           [GInt 0; GString "old"] 1
           (Demo.field "Note" [("query", "note")] TString) (GString "old")).
  - reflexivity.
  - reflexivity.
  - left. reflexivity.
Defined.

End NestedFrameExamples.

Section TextMethodsExamples.

#[local] Existing Instance Demo.std.
#[local] Existing Instance Demo.usr.


End TextMethodsExamples.
